(** * ble-pics-viewer: the PICS packet decoder and the signal tracker

    A shallow embedding of [ble-pics-viewer.py]: [process_pics], the
    module-level state ([latest_info], [last_signal_info], [log_history], ...)
    and [detection_callback], followed by the properties of the decoder and
    of the tracker.

    Conventions.
    - A payload is [list(data_bytes)], a list of integers in 0..255: here a
      [list byte]; [byte_val] gives the integer.
    - A Python [str] holding arbitrary text (the identifier) is the list of
      its code points; the strings built from fixed alphabets (the hex
      rendering, the state labels) are [string]s.
    - A [datetime] is its number of microseconds, a [timedelta] likewise.
    - A Python [float] is an IEEE 754 binary64 value, a [spec_float] of the
      Standard Library with precision 53 and maximal exponent 1024; the true
      division of two ints is the binary64 division of their conversions.
    - [print] writes to a stream that encodes the text it is given.
    - An uncaught Python exception is the [Raise] outcome; the module state
      keeps every assignment made before the exception was raised. *)

From Stdlib Require Import ZArith List String Ascii Bool Lia Sorted.
From Stdlib Require Import SpecFloat.
From Stdlib.Strings Require Import Byte.
Import ListNotations.
Open Scope Z_scope.

(** ** Python values *)

Definition byte_val (b : byte) : Z := Z.of_N (Byte.to_N b).

(** [l[lo:hi]] for [0 <= lo <= hi]: never raises, shorter when [l] is. *)
Definition slice {A : Type} (lo hi : nat) (l : list A) : list A :=
  firstn (hi - lo) (skipn lo l).

Inductive exn : Type :=
| IndexError   (* list index out of range *)
| KeyError     (* missing dict key *)
| AttributeError (* attribute of None *)
| StructError. (* struct.error: unpack requires a buffer of 4 bytes *)

Inductive result (A : Type) : Type :=
| Ok (a : A)
| Raise (e : exn).
Arguments Ok {A} a.
Arguments Raise {A} e.

Definition rbind {A B : Type} (r : result A) (k : A -> result B) : result B :=
  match r with
  | Ok a => k a
  | Raise e => Raise e
  end.

Declare Scope result_scope.
Delimit Scope result_scope with result.
Notation "'let?' x := r 'in' k" := (rbind r (fun x => k))
  (at level 10, x name, r at level 100, k at level 200) : result_scope.

(** [l[i]]: IndexError out of range. *)
Definition index {A : Type} (l : list A) (i : nat) : result A :=
  match nth_error l i with
  | Some a => Ok a
  | None => Raise IndexError
  end.

(** *** [hex(num)[2:].upper().zfill(2)] on a byte *)

Definition hex_digit (d : Z) : ascii :=
  match d with
  | 0 => "0" | 1 => "1" | 2 => "2" | 3 => "3" | 4 => "4"
  | 5 => "5" | 6 => "6" | 7 => "7" | 8 => "8" | 9 => "9"
  | 10 => "a" | 11 => "b" | 12 => "c" | 13 => "d" | 14 => "e"
  | _ => "f"
  end%char.

(** [hex(num)[2:]] for [0 <= num < 256]: lower case, no leading zero. *)
Definition hex_body (num : Z) : string :=
  if num <? 16 then String (hex_digit num) EmptyString
  else String (hex_digit (num / 16)) (String (hex_digit (num mod 16)) EmptyString).

Definition upper_char (c : ascii) : ascii :=
  let n := nat_of_ascii c in
  if ((97 <=? n) && (n <=? 122))%nat then ascii_of_nat (n - 32) else c.

Fixpoint upper (s : string) : string :=
  match s with
  | EmptyString => EmptyString
  | String c s' => String (upper_char c) (upper s')
  end.

Fixpoint zeros (n : nat) : string :=
  match n with
  | O => EmptyString
  | S n' => String "0"%char (zeros n')
  end.

(** [s.zfill(width)] for a string without sign. *)
Definition zfill (width : nat) (s : string) : string :=
  (zeros (width - String.length s) ++ s)%string.

Definition hex2 (b : byte) : string := zfill 2 (upper (hex_body (byte_val b))).

(** [[s1, s2, ...]] joined by the empty string. *)
Definition join (l : list string) : string :=
  fold_right String.append EmptyString l.

(** *** [bytes(...).decode(errors='ignore')]

    The UTF-8 decoder of CPython with the [ignore] error handler: an invalid
    start byte is skipped alone, an invalid continuation byte ends the
    sequence (the bytes read so far are skipped and decoding resumes at the
    offending byte), and a sequence cut by the end of the data is skipped.
    Overlong forms, surrogates and code points above U+10FFFF are invalid. *)

Definition is_continuation (ch : Z) : bool := (0x80 <=? ch) && (ch <? 0xC0).

Fixpoint utf8_decode_ignore (s : list byte) : list Z :=
  match s with
  | [] => []
  | b0 :: s1 =>
    let ch := byte_val b0 in
    if ch <? 0x80 then ch :: utf8_decode_ignore s1
    else if ch <? 0xC2 then utf8_decode_ignore s1
    else if ch <? 0xE0 then
      match s1 with
      | [] => []
      | b1 :: s2 =>
        let ch2 := byte_val b1 in
        if negb (is_continuation ch2) then utf8_decode_ignore s1
        else (Z.shiftl ch 6 + ch2 - (Z.shiftl 0xC0 6 + 0x80))
               :: utf8_decode_ignore s2
      end
    else if ch <? 0xF0 then
      match s1 with
      | [] => []
      | b1 :: s2 =>
        let ch2 := byte_val b1 in
        if negb (is_continuation ch2)
           || (if ch2 <? 0xA0 then ch =? 0xE0 else ch =? 0xED)
        then utf8_decode_ignore s1
        else
          match s2 with
          | [] => []
          | b2 :: s3 =>
            let ch3 := byte_val b2 in
            if negb (is_continuation ch3) then utf8_decode_ignore s2
            else (Z.shiftl ch 12 + Z.shiftl ch2 6 + ch3
                  - (Z.shiftl 0xE0 12 + Z.shiftl 0x80 6 + 0x80))
                   :: utf8_decode_ignore s3
          end
      end
    else if ch <? 0xF5 then
      match s1 with
      | [] => []
      | b1 :: s2 =>
        let ch2 := byte_val b1 in
        if negb (is_continuation ch2)
           || (if ch2 <? 0x90 then ch =? 0xF0 else ch =? 0xF4)
        then utf8_decode_ignore s1
        else
          match s2 with
          | [] => []
          | b2 :: s3 =>
            let ch3 := byte_val b2 in
            if negb (is_continuation ch3) then utf8_decode_ignore s2
            else
              match s3 with
              | [] => []
              | b3 :: s4 =>
                let ch4 := byte_val b3 in
                if negb (is_continuation ch4) then utf8_decode_ignore s3
                else (Z.shiftl ch 18 + Z.shiftl ch2 12 + Z.shiftl ch3 6 + ch4
                      - (Z.shiftl 0xF0 18 + Z.shiftl 0x80 12
                         + Z.shiftl 0x80 6 + 0x80))
                       :: utf8_decode_ignore s4
              end
          end
      end
    else utf8_decode_ignore s1
  end.

(** [s.lstrip('\x00')], [s.rstrip('\x00')] and [s.strip('\x00')]. *)
Fixpoint lstrip_nul (s : list Z) : list Z :=
  match s with
  | [] => []
  | c :: s' => if c =? 0 then lstrip_nul s' else s
  end.

Definition rstrip_nul (s : list Z) : list Z := rev (lstrip_nul (rev s)).

Definition strip_nul (s : list Z) : list Z := rstrip_nul (lstrip_nul s).

(** *** [float] and the true division of ints

    [float(n)] is exact for an int of at most 53 bits.  For two such ints,
    [a / b] converts both and divides them in binary64, rounding to nearest
    with ties to even ([b] is not zero where the program divides). *)

Definition float_of_int (n : Z) : spec_float := binary_normalize 53 1024 n 0 false.

Definition int_true_div (a b : Z) : spec_float :=
  SFdiv 53 1024 (float_of_int a) (float_of_int b).

(** *** [struct.unpack('>i', bs)[0]] *)

Definition unpack_be_i32 (bs : list byte) : result Z :=
  match bs with
  | [b0; b1; b2; b3] =>
    let u := byte_val b0 * 2 ^ 24 + byte_val b1 * 2 ^ 16
             + byte_val b2 * 2 ^ 8 + byte_val b3 in
    Ok (if u <? 2 ^ 31 then u else u - 2 ^ 32)
  | _ => Raise StructError
  end.

(** ** [process_pics] *)

Record phase : Type := {
  remaining_time : Z;
  signal_state : string
}.

(** The keys that depend on the message type. *)
Inductive fields : Type :=
| Identifier (identifier : list Z)
| Location (latitude longitude : spec_float)
| Signals (pedestrian_signals : list phase)
| NoFields.

Record pics_info : Type := {
  message_type : Z;
  message_id : Z;
  intersection_id : string;
  type_fields : fields
}.

(** The dict literal with [.get(signal_state, 'Unknown')]. *)
Definition state_name (signal_state : Z) : string :=
  match signal_state with
  | 0 => "NoSignal"
  | 1 => "Red"
  | 2 => "BlinkGreen"
  | 3 => "Green"
  | 4 => "None"
  | _ => "Unknown"
  end%string.

(** The body of the loop at one signal byte. *)
Definition decode_phase (signal_byte : Z) : phase :=
  let remaining_time := Z.land (Z.shiftr signal_byte 4) 0x0F in
  let signal_state := Z.land signal_byte 0x0F in
  {| remaining_time := if remaining_time >=? 8 then -1 else remaining_time + 1;
     signal_state := state_name signal_state |}.

(** [for i in range(6): if 10 + i < len(data): ... append(...)]. *)
Definition signals_loop (data : list byte) : list phase :=
  fold_left
    (fun pedestrian_signals i =>
       if (10 + i <? List.length data)%nat
       then pedestrian_signals
              ++ [decode_phase (byte_val (nth (10 + i) data "000"%byte))]
       else pedestrian_signals)
    (seq 0 6) [].

Definition process_pics (data : list byte) : result pics_info :=
  (let? b2 := index data 2 in
   let msg_type := byte_val b2 in
   let? b3 := index data 3 in
   let header := Build_pics_info msg_type (byte_val b3)
                                 (join (map hex2 (slice 6 10 data))) in
   if msg_type =? 0 then
     Ok (header (Identifier (strip_nul (utf8_decode_ignore (slice 10 24 data)))))
   else if msg_type =? 1 then
     let? lat := unpack_be_i32 (slice 10 14 data) in
     let latitude := int_true_div lat 1000000 in
     let? lon := unpack_be_i32 (slice 14 18 data) in
     let longitude := int_true_div lon 1000000 in
     Ok (header (Location latitude longitude))
   else if msg_type =? 2 then
     Ok (header (Signals (signals_loop data)))
   else
     Ok (header NoFields))%result.

(** ** [state_symbol]

    The table of symbols with [.get(state, '?')]; a symbol is a Python [str],
    given by its code points. *)

Definition state_symbol (state : string) : list Z :=
  if String.eqb state "NoSignal" then [0x20]
  else if String.eqb state "Red" then [0x1F534]
  else if String.eqb state "BlinkGreen" then [0x1F7E2; 0x28; 0x42; 0x29]
  else if String.eqb state "Green" then [0x1F7E2]
  else if String.eqb state "None" then [0x30FB]
  else if String.eqb state "Unknown" then [0x3F]
  else [0x3F].

(** ** The vendor filter and the decoding of one advertisement entry

    One turn of the loop of [detection_callback] up to the call of
    [process_pics]: an entry of another manufacturer is skipped by
    [continue] before its bytes are looked at. *)

Inductive decoded : Type :=
| VendorMismatch              (* [continue]: no record, nothing raised *)
| Raised (e : exn)            (* [process_pics] raised *)
| Decoded (info : pics_info).

Definition decode (manufacturer_id : Z) (data_bytes : list byte) : decoded :=
  if negb (manufacturer_id =? 0x01CE) then VendorMismatch
  else
    match process_pics data_bytes with
    | Ok info => Decoded info
    | Raise e => Raised e
    end.

(** ** Module state *)

Record history_entry : Type := {
  time : Z;
  s1 : phase;
  s2 : phase
}.

(** [collections.deque(maxlen=...)]: [append] on a full deque discards the
    item at the left end. *)
Record deque (A : Type) : Type := {
  maxlen : nat;
  items : list A
}.
Arguments maxlen {A} d.
Arguments items {A} d.

Definition deque_append {A : Type} (d : deque A) (x : A) : deque A :=
  if (maxlen d =? 0)%nat then d
  else if (List.length (items d) <? maxlen d)%nat
       then {| maxlen := maxlen d; items := items d ++ [x] |}
       else {| maxlen := maxlen d; items := tl (items d) ++ [x] |}.

(** What the callback prints, kept as values: the rendering to text
    ([strftime], [state_symbol], [json.dumps]) is not modelled. *)
Inductive output : Type :=
| Header                                       (* clear, title and column lines *)
| SignalRow (t : Z) (w n : phase)              (* the retained signal display *)
| Waiting                                      (* the waiting line *)
| Monitor (t : Z) (raw : list byte) (info : pics_info)
| HistoryRows (rows : list history_entry).

Record world : Type := {
  latest_info : option pics_info;
  latest_raw : option (list byte);
  latest_timestamp : option Z;
  last_signal_info : option pics_info;
  log_history : deque history_entry;
  ticks : nat;               (* readings of the clock taken so far *)
  stdout : list output
}.

Definition initial : world :=
  {| latest_info := None; latest_raw := None; latest_timestamp := None;
     last_signal_info := None;
     log_history := {| maxlen := 5; items := [] |};
     ticks := 0; stdout := [] |}.

(** ** A state and exception monad for the callback *)

Definition M (A : Type) : Type := world -> world * result A.

Definition ret {A : Type} (a : A) : M A := fun w => (w, Ok a).

Definition bind {A B : Type} (m : M A) (k : A -> M B) : M B :=
  fun w =>
    match m w with
    | (w', Ok a) => k a w'
    | (w', Raise e) => (w', Raise e)
    end.

Definition lift {A : Type} (r : result A) : M A := fun w => (w, r).

Definition get : M world := fun w => (w, Ok w).

Definition modify (f : world -> world) : M unit := fun w => (f w, Ok tt).

Declare Scope callback_scope.
Delimit Scope callback_scope with callback.
Notation "x <- m ;; k" := (bind m (fun x => k))
  (at level 61, m at next level, right associativity) : callback_scope.
Notation "m ;; k" := (bind m (fun _ => k))
  (at level 61, right associativity) : callback_scope.
Open Scope callback_scope.

Definition set_latest (info : pics_info) (data : list byte) (w : world) : world :=
  {| latest_info := Some info; latest_raw := Some data;
     latest_timestamp := latest_timestamp w;
     last_signal_info := last_signal_info w; log_history := log_history w;
     ticks := ticks w; stdout := stdout w |}.

Definition set_latest_timestamp (t : Z) (w : world) : world :=
  {| latest_info := latest_info w; latest_raw := latest_raw w;
     latest_timestamp := Some t;
     last_signal_info := last_signal_info w; log_history := log_history w;
     ticks := ticks w; stdout := stdout w |}.

Definition set_last_signal_info (info : pics_info) (w : world) : world :=
  {| latest_info := latest_info w; latest_raw := latest_raw w;
     latest_timestamp := latest_timestamp w;
     last_signal_info := Some info; log_history := log_history w;
     ticks := ticks w; stdout := stdout w |}.

Definition log_history_append (entry : history_entry) (w : world) : world :=
  {| latest_info := latest_info w; latest_raw := latest_raw w;
     latest_timestamp := latest_timestamp w;
     last_signal_info := last_signal_info w;
     log_history := deque_append (log_history w) entry;
     ticks := ticks w; stdout := stdout w |}.

(** [print] to a stream that encodes the text: the output is appended.
    The UnicodeEncodeError of a stream that cannot encode the header or a
    symbol is not part of this model. *)
Definition print (o : output) : M unit :=
  modify (fun w =>
    {| latest_info := latest_info w; latest_raw := latest_raw w;
       latest_timestamp := latest_timestamp w;
       last_signal_info := last_signal_info w; log_history := log_history w;
       ticks := ticks w; stdout := stdout w ++ [o] |}).

(** [info['pedestrian_signals']] *)
Definition get_pedestrian_signals (info : pics_info) : result (list phase) :=
  match type_fields info with
  | Signals l => Ok l
  | _ => Raise KeyError
  end.

(** [timedelta(seconds=s)] *)
Definition timedelta_seconds (s : Z) : Z := s * 1000000.

(** The retained display: what the branch on [last_signal_info] shows. *)
Definition current_display (w : world) : result (option (phase * phase)) :=
  match last_signal_info w with
  | Some info =>
    (let? l0 := get_pedestrian_signals info in
     let? s1 := index l0 0 in
     let? l1 := get_pedestrian_signals info in
     let? s2 := index l1 1 in
     Ok (Some (s1, s2)))%result
  | None => Ok None
  end.

(** The list comprehension over [list(log_history)]; the callback uses it
    with a window of 30 seconds. *)
Definition recent_entries (window now : Z) (log : deque history_entry)
  : list history_entry :=
  filter (fun entry => now - time entry <=? window) (items log).

Section Callback.

(** [datetime.now()]: the [n]-th reading of the clock. *)
Variable clock : nat -> Z.

Definition datetime_now : M Z :=
  fun w =>
    ({| latest_info := latest_info w; latest_raw := latest_raw w;
        latest_timestamp := latest_timestamp w;
        last_signal_info := last_signal_info w; log_history := log_history w;
        ticks := S (ticks w); stdout := stdout w |},
     Ok (clock (ticks w))).

(** The assignments to the globals and the update on a type 2 record. *)
Definition ingest (info : pics_info) (data : list byte) : M unit :=
  modify (set_latest info data) ;;
  t <- datetime_now ;;
  modify (set_latest_timestamp t) ;;
  if message_type info =? 2 then
    modify (set_last_signal_info info) ;;
    l0 <- lift (get_pedestrian_signals info) ;;
    s1 <- lift (index l0 0) ;;
    l1 <- lift (get_pedestrian_signals info) ;;
    s2 <- lift (index l1 1) ;;
    modify (log_history_append {| time := t; s1 := s1; s2 := s2 |})
  else ret tt.

Definition show_signal : M unit :=
  w <- get ;;
  d <- lift (current_display w) ;;
  match d with
  | Some (s1, s2) =>
    match latest_timestamp w with
    | Some t => print (SignalRow t s1 s2)
    | None => lift (Raise AttributeError)
    end
  | None => print Waiting
  end.

Definition show_monitor (info : pics_info) (data : list byte) : M unit :=
  w <- get ;;
  match latest_timestamp w with
  | Some t => print (Monitor t data info)
  | None => lift (Raise AttributeError)
  end.

Definition show_history : M unit :=
  now <- datetime_now ;;
  w <- get ;;
  print (HistoryRows (recent_entries (timedelta_seconds 30) now (log_history w))).

(** The loop body once [process_pics] has returned [info]: the update of the
    globals, then the screen.  A [pics_info] always has its three header
    keys, so [if not pics_info] is never taken. *)
Definition display (info : pics_info) (data : list byte) : M unit :=
  print Header ;;
  show_signal ;;
  show_monitor info data ;;
  show_history.

Definition handle (info : pics_info) (data : list byte) : M unit :=
  ingest info data ;;
  display info data.

(** [manufacturer_data.items()] in the dict's order. *)
Fixpoint detection_callback (manufacturer_data : list (Z * list byte)) : M unit :=
  match manufacturer_data with
  | [] => ret tt
  | (manufacturer_id, data_bytes) :: rest =>
    match decode manufacturer_id data_bytes with
    | VendorMismatch => detection_callback rest
    | Raised e => lift (Raise e)
    | Decoded info => handle info data_bytes ;; detection_callback rest
    end
  end.

(** The scanner calls the callback once per advertisement; an exception
    ends that call only. *)
Definition feed (ads : list (list (Z * list byte))) (w : world) : world :=
  fold_left (fun w ad => fst (detection_callback ad w)) ads w.

End Callback.

(** ** Notions used by the statements *)

(** The message-type byte of a payload, when it has one. *)
Definition payload_type (data : list byte) : option Z :=
  option_map byte_val (nth_error data 2).

(** The unsigned big-endian value of [data[off:off+4]] and its reading as a
    signed 32-bit integer in two's complement. *)
Definition be_u32_at (data : list byte) (off : nat) : Z :=
  byte_val (nth off data "000"%byte) * 2 ^ 24
  + byte_val (nth (off + 1) data "000"%byte) * 2 ^ 16
  + byte_val (nth (off + 2) data "000"%byte) * 2 ^ 8
  + byte_val (nth (off + 3) data "000"%byte).

Definition be_i32_at (data : list byte) (off : nat) : Z :=
  (be_u32_at data off + 2 ^ 31) mod 2 ^ 32 - 2 ^ 31.

(** The doubles written [-2147.483648] and [2147.483647]: the binary64
    values nearest to -2^31 / 10^6 and (2^31 - 1) / 10^6. *)
Definition coordinate_min : spec_float :=
  S754_finite true 4722366482869645 (-41).

Definition coordinate_max : spec_float :=
  S754_finite false 4722366480670622 (-41).

(** An entry of [manufacturer_data] that is not a type 2 message of
    manufacturer 0x01CE. *)
Definition non_signal (entry : Z * list byte) : Prop :=
  fst entry <> 0x01CE \/ payload_type (snd entry) <> Some 2.

(** A payload carrying a type 2 message with at least two phases. *)
Definition signal_payload (data : list byte) : Prop :=
  payload_type data = Some 2 /\ (12 <= List.length data)%nat.

(** The history entry made from such a payload at time [t]. *)
Definition entry_of (t : Z) (data : list byte) : history_entry :=
  {| time := t;
     s1 := decode_phase (byte_val (nth 10 data "000"%byte));
     s2 := decode_phase (byte_val (nth 11 data "000"%byte)) |}.

(** One advertisement per payload, each from manufacturer 0x01CE. *)
Definition pics_ads (payloads : list (list byte)) : list (list (Z * list byte)) :=
  map (fun data => [(0x01CE, data)]) payloads.

(** The entries logged for consecutive signal payloads when the first is
    received at clock reading [k]: each callback reads the clock twice. *)
Fixpoint entries (clock : nat -> Z) (k : nat) (payloads : list (list byte))
  : list history_entry :=
  match payloads with
  | [] => []
  | data :: rest => entry_of (clock k) data :: entries clock (S (S k)) rest
  end.

(** The last [n] items of a list. *)
Definition lastn {A : Type} (n : nat) (l : list A) : list A :=
  skipn (List.length l - n) l.

(** The capacity invariant of [log_history]. *)
Definition history_ok (w : world) : Prop :=
  maxlen (log_history w) = 5%nat
  /\ (List.length (items (log_history w)) <= 5)%nat.

(** [l1] is [l2] with some items left out, the order kept. *)
Inductive subsequence {A : Type} : list A -> list A -> Prop :=
| subsequence_nil : subsequence [] []
| subsequence_keep x l1 l2 : subsequence l1 l2 -> subsequence (x :: l1) (x :: l2)
| subsequence_drop x l1 l2 : subsequence l1 l2 -> subsequence l1 (x :: l2).


(** *** Notions for the further properties *)

(** The value of an upper-case hexadecimal digit. *)
Definition hex_value (c : ascii) : option Z :=
  let n := Z.of_nat (nat_of_ascii c) in
  if (48 <=? n) && (n <=? 57) then Some (n - 48)
  else if (65 <=? n) && (n <=? 70) then Some (n - 55)
  else None.

(** Reading a string of upper-case hexadecimal digit pairs back to the
    values of the bytes. *)
Fixpoint unhex (s : string) : option (list Z) :=
  match s with
  | EmptyString => Some []
  | String c1 (String c2 s') =>
    match hex_value c1, hex_value c2, unhex s' with
    | Some h, Some l, Some r => Some (h * 16 + l :: r)
    | _, _, _ => None
    end
  | String _ EmptyString => None
  end.

(** The labels the decoder gives to signal states. *)
Definition state_labels : list string :=
  ["NoSignal"; "Red"; "BlinkGreen"; "Green"; "None"; "Unknown"]%string.

(** A Unicode scalar value: a code point that is not a surrogate. *)
Definition scalar_value (c : Z) : Prop :=
  0 <= c < 0xD800 \/ 0xE000 <= c <= 0x10FFFF.

(** The retained signal record is a type 2 record with its phases. *)
Definition tracker_ok (w : world) : Prop :=
  forall info,
    last_signal_info w = Some info ->
    message_type info = 2 /\ exists l, type_fields info = Signals l.

(** Actions whose effect on the state stays within a relation. *)
Definition preserves (R : world -> world -> Prop) {A : Type} (m : M A) : Prop :=
  forall w, R w (fst (m w)).

(** The three [latest_...] globals are the same in both states. *)
Definition same_latest (w w' : world) : Prop :=
  latest_info w' = latest_info w
  /\ latest_raw w' = latest_raw w
  /\ latest_timestamp w' = latest_timestamp w.

(** No reading of the clock is taken back. *)
Definition not_before (w w' : world) : Prop := (ticks w <= ticks w')%nat.

(** A clock that never goes back. *)
Definition clock_monotone (clock : nat -> Z) : Prop :=
  forall m n, (m <= n)%nat -> clock m <= clock n.

(** The history is in the order of its times, none later than the next
    reading of the clock. *)
Definition history_sorted (clock : nat -> Z) (w : world) : Prop :=
  StronglySorted (fun a b => time a <= time b) (items (log_history w))
  /\ Forall (fun entry => time entry <= clock (ticks w)) (items (log_history w)).

(** The entries of [manufacturer_data] that pass the vendor filter. *)
Definition pics_entries (ad : list (Z * list byte)) : list (Z * list byte) :=
  filter (fun entry => fst entry =? 0x01CE) ad.

(** Actions that change no field of the tracker. *)
Definition frames {A : Type} (m : M A) : Prop :=
  forall w,
    last_signal_info (fst (m w)) = last_signal_info w
    /\ log_history (fst (m w)) = log_history w.

(** A type 2 payload with the two given signal bytes, for examples. *)
Definition sample_signal (west north : byte) : list byte :=
  [x00; x00; x02; x07; x00; x00; x0a; xff; x01; x2b; west; north].

(** * Properties of the decoder *)

Lemma byte_val_range (b : byte) : 0 <= byte_val b < 256.
Proof. destruct b; vm_compute; split; congruence. Qed.

Lemma high_nibble (b : byte) :
  Z.land (Z.shiftr (byte_val b) 4) 0x0F = byte_val b / 16.
Proof. destruct b; reflexivity. Qed.

Lemma low_nibble (b : byte) : Z.land (byte_val b) 0x0F = byte_val b mod 16.
Proof. destruct b; reflexivity. Qed.

Lemma index_lt {A : Type} (l : list A) (i : nat) :
  (i < List.length l)%nat -> exists a, nth_error l i = Some a /\ index l i = Ok a.
Proof.
  intros Hi. unfold index.
  destruct (nth_error l i) as [a|] eqn:E.
  - now exists a.
  - apply nth_error_None in E. lia.
Qed.

Lemma index_ge {A : Type} (l : list A) (i : nat) :
  (List.length l <= i)%nat -> index l i = Raise IndexError.
Proof.
  intros Hi. unfold index.
  now rewrite (proj2 (nth_error_None l i) Hi).
Qed.

Lemma slice_length {A : Type} (lo hi : nat) (l : list A) :
  List.length (slice lo hi l) = Nat.min (hi - lo) (List.length l - lo).
Proof. unfold slice. now rewrite length_firstn, length_skipn. Qed.

Lemma slice_nil {A : Type} (lo hi : nat) (l : list A) :
  (List.length l <= lo)%nat -> slice lo hi l = [].
Proof.
  intros H. unfold slice. rewrite (skipn_all2 l H). apply firstn_nil.
Qed.

Lemma skipn_cons_nth {A : Type} (n : nat) (l : list A) (d : A) :
  (n < List.length l)%nat -> skipn n l = nth n l d :: skipn (S n) l.
Proof.
  revert l; induction n as [|n IH]; intros [|a l] Hn; simpl in *; try lia.
  - reflexivity.
  - apply IH. lia.
Qed.

(** The header part of [process_pics]: it needs indices 2 and 3 only. *)
Lemma process_pics_short (data : list byte) :
  (List.length data < 4)%nat -> process_pics data = Raise IndexError.
Proof.
  intros H. unfold process_pics.
  destruct (Nat.lt_ge_cases 2 (List.length data)) as [H2|H2].
  - destruct (index_lt data 2 H2) as (b & _ & ->). simpl.
    rewrite index_ge by lia. reflexivity.
  - rewrite index_ge by lia. reflexivity.
Qed.

Lemma process_pics_header (data : list byte) :
  (4 <= List.length data)%nat ->
  exists b2 b3,
    nth_error data 2 = Some b2 /\ nth_error data 3 = Some b3 /\
    process_pics data =
      (let header := Build_pics_info (byte_val b2) (byte_val b3)
                                     (join (map hex2 (slice 6 10 data))) in
       if byte_val b2 =? 0 then
         Ok (header (Identifier
                       (strip_nul (utf8_decode_ignore (slice 10 24 data)))))
       else if byte_val b2 =? 1 then
         rbind (unpack_be_i32 (slice 10 14 data)) (fun lat =>
         rbind (unpack_be_i32 (slice 14 18 data)) (fun lon =>
         Ok (header (Location (int_true_div lat 1000000)
                              (int_true_div lon 1000000)))))
       else if byte_val b2 =? 2 then Ok (header (Signals (signals_loop data)))
       else Ok (header NoFields)).
Proof.
  intros H.
  destruct (index_lt data 2) as (b2 & E2 & I2); [lia|].
  destruct (index_lt data 3) as (b3 & E3 & I3); [lia|].
  exists b2, b3. repeat split; trivial.
  unfold process_pics. rewrite I2. simpl. rewrite I3. reflexivity.
Qed.

Lemma payload_type_byte (data : list byte) (b : byte) (t : Z) :
  nth_error data 2 = Some b -> payload_type data = Some t -> byte_val b = t.
Proof. unfold payload_type. intros -> [=]. assumption. Qed.

(** The loop over [range(6)] reads the bytes of [data[10:16]] in order. *)
Lemma signals_fold (data : list byte) (n a : nat) (acc : list phase) :
  fold_left
    (fun pedestrian_signals i =>
       if (10 + i <? List.length data)%nat
       then pedestrian_signals
              ++ [decode_phase (byte_val (nth (10 + i) data "000"%byte))]
       else pedestrian_signals)
    (seq a n) acc
  = acc ++ map (fun b => decode_phase (byte_val b))
               (firstn n (skipn (10 + a) data)).
Proof.
  revert a acc; induction n as [|n IH]; intros a acc.
  - simpl. now rewrite app_nil_r.
  - cbn [seq fold_left]. rewrite IH.
    destruct (Nat.ltb_spec (10 + a) (List.length data)) as [Hlt|Hge].
    + rewrite (skipn_cons_nth (10 + a) data "000"%byte Hlt).
      cbn [firstn map]. rewrite <- app_assoc.
      replace (10 + S a)%nat with (S (10 + a)) by lia. reflexivity.
    + rewrite (skipn_all2 data (n := 10 + a)) by lia.
      rewrite (skipn_all2 data (n := 10 + S a)) by lia.
      now rewrite !firstn_nil.
Qed.

Lemma signals_loop_map (data : list byte) :
  signals_loop data = map (fun b => decode_phase (byte_val b)) (slice 10 16 data).
Proof. unfold signals_loop. now rewrite signals_fold. Qed.

Lemma decode_vendor (data : list byte) :
  decode 0x01CE data =
    match process_pics data with
    | Ok info => Decoded info
    | Raise e => Raised e
    end.
Proof. reflexivity. Qed.

Lemma detection_callback_foreign (clock : nat -> Z) (ad : list (Z * list byte)) (w : world) :
  Forall (fun entry => fst entry <> 0x01CE) ad ->
  detection_callback clock ad w = (w, Ok tt).
Proof.
  induction 1 as [|[v data] ad Hv _ IH]; simpl.
  - reflexivity.
  - unfold decode. simpl in Hv.
    destruct (Z.eqb_spec v 0x01CE) as [->|_]; [now elim Hv|].
    simpl. exact IH.
Qed.

(** C9. An advertisement entry of any manufacturer other than 0x01CE is
    skipped whatever its bytes are, also bytes on which the parser would
    raise: no record, and the callback leaves the state untouched.  For
    manufacturer 0x01CE the outcome is that of [process_pics]. *)
Theorem vendor_filter :
  (forall manufacturer_id data,
      manufacturer_id <> 0x01CE -> decode manufacturer_id data = VendorMismatch)
  /\ (forall clock ad w,
         Forall (fun entry => fst entry <> 0x01CE) ad ->
         detection_callback clock ad w = (w, Ok tt))
  /\ (forall data,
         decode 0x01CE data =
           match process_pics data with
           | Ok info => Decoded info
           | Raise e => Raised e
           end).
Proof.
  split; [|split].
  - intros v data Hv. unfold decode.
    destruct (Z.eqb_spec v 0x01CE); [contradiction|reflexivity].
  - apply detection_callback_foreign.
  - apply decode_vendor.
Qed.

Lemma vendor_filter_witness :
  decode 0x004C [x02; x15] = VendorMismatch
  /\ detection_callback Z.of_nat [(0x004C, [x02; x15])] initial = (initial, Ok tt)
  /\ decode 0x01CE [x02; x15] = Raised IndexError.
Proof.
  destruct vendor_filter as (H1 & H2 & H3).
  split; [|split].
  - apply H1. lia.
  - apply H2. repeat constructor. simpl. lia.
  - rewrite H3. reflexivity.
Defined.

(** C1 as stated fails: a payload of nine bytes is decoded to a record. *)
Lemma short_payload_counterexample :
  ~ (forall data, (List.length data < 10)%nat ->
                  forall info, decode 0x01CE data <> Decoded info).
Proof.
  intros H.
  apply (H [x00; x00; x00; x07; x00; x00; x0a; xff; x01] ltac:(simpl; lia)
           {| message_type := 0; message_id := 7; intersection_id := "0AFF01";
              type_fields := Identifier [] |}).
  reflexivity.
Qed.

(** C1, amended. A payload of fewer than 4 bytes yields no record: reading
    the header raises IndexError.  A payload of 4 to 9 bytes is not rejected
    for its length: unless its type byte is 1 it is decoded, the
    intersection id rendering the bytes of [data[6:10]] that are present.
    A payload of exactly 10 bytes with type byte 0 is decoded to an
    identifier record with the empty identifier. *)
Theorem short_payload_decoding :
  (forall data, (List.length data < 4)%nat -> decode 0x01CE data = Raised IndexError)
  /\ (forall data t,
         (4 <= List.length data < 10)%nat -> payload_type data = Some t -> t <> 1 ->
         exists info,
           decode 0x01CE data = Decoded info
           /\ message_type info = t
           /\ intersection_id info = join (map hex2 (skipn 6 data)))
  /\ (forall data,
         List.length data = 10%nat -> payload_type data = Some 0 ->
         exists info,
           decode 0x01CE data = Decoded info /\ type_fields info = Identifier []).
Proof.
  split; [|split].
  - intros data H. rewrite decode_vendor, process_pics_short; trivial.
  - intros data t H Ht Ht1. rewrite decode_vendor.
    destruct (process_pics_header data) as (b2 & b3 & E2 & _ & ->); [lia|].
    rewrite (payload_type_byte _ _ _ E2 Ht) in *.
    assert (Hs : slice 6 10 data = skipn 6 data).
    { unfold slice. apply firstn_all2. rewrite length_skipn. lia. }
    cbv zeta. rewrite Hs.
    destruct (Z.eqb_spec t 0); [|destruct (Z.eqb_spec t 1); [contradiction|
                                  destruct (Z.eqb_spec t 2)]];
      eexists; repeat split; reflexivity.
  - intros data H Ht. rewrite decode_vendor.
    destruct (process_pics_header data) as (b2 & b3 & E2 & _ & ->); [lia|].
    rewrite (payload_type_byte _ _ _ E2 Ht) in *.
    cbv zeta. simpl (0 =? 0).
    rewrite (slice_nil 10 24 data) by lia.
    eexists; split; reflexivity.
Qed.

Lemma short_payload_decoding_witness :
  decode 0x01CE [x00; x00; x00] = Raised IndexError
  /\ (exists info,
         decode 0x01CE [x00; x00; x02; x07; x00; x00; x0a; xff; x01] = Decoded info
         /\ message_type info = 2
         /\ intersection_id info = "0AFF01"%string)
  /\ (exists info,
         decode 0x01CE [x00; x00; x00; x07; x00; x00; x0a; xff; x01; x2b] = Decoded info
         /\ type_fields info = Identifier []).
Proof.
  destruct short_payload_decoding as (H1 & H2 & H3).
  split; [|split].
  - apply H1. simpl. lia.
  - apply (H2 [x00; x00; x02; x07; x00; x00; x0a; xff; x01] 2).
    + simpl. lia.
    + reflexivity.
    + lia.
  - apply H3; reflexivity.
Defined.

Lemma decode_phase_nibbles (b : byte) :
  decode_phase (byte_val b) =
    {| remaining_time :=
         if 8 <=? byte_val b / 16 then -1 else byte_val b / 16 + 1;
       signal_state := state_name (byte_val b mod 16) |}.
Proof.
  unfold decode_phase. cbv zeta.
  now rewrite high_nibble, low_nibble, Z.geb_leb.
Qed.

(** C2. A type 2 payload of at least 10 bytes is decoded to a record whose
    [pedestrian_signals] has [min 6 (len - 10)] phases, none made up; phase
    [i] comes from byte [10 + i]: the remaining time is -1 when the high
    nibble is 8 or more and the high nibble plus one otherwise, and the low
    nibble 0, 1, 2, 3, 4 gives NoSignal, Red, BlinkGreen (the blinking green
    state), Green, None, any other nibble Unknown. *)
Theorem signal_phases (data : list byte) :
  (10 <= List.length data)%nat ->
  payload_type data = Some 2 ->
  exists info l,
    decode 0x01CE data = Decoded info
    /\ type_fields info = Signals l
    /\ List.length l = Nat.min 6 (List.length data - 10)
    /\ forall i, (i < List.length l)%nat ->
         exists b,
           nth_error data (10 + i) = Some b
           /\ nth_error l i =
                Some {| remaining_time :=
                          if 8 <=? byte_val b / 16 then -1
                          else byte_val b / 16 + 1;
                        signal_state :=
                          match byte_val b mod 16 with
                          | 0 => "NoSignal"
                          | 1 => "Red"
                          | 2 => "BlinkGreen"
                          | 3 => "Green"
                          | 4 => "None"
                          | _ => "Unknown"
                          end%string |}.
Proof.
  intros Hlen Ht. rewrite decode_vendor.
  destruct (process_pics_header data) as (b2 & b3 & E2 & _ & ->); [lia|].
  rewrite (payload_type_byte _ _ _ E2 Ht). cbv zeta. simpl (2 =? _).
  rewrite signals_loop_map.
  eexists; eexists; split; [reflexivity|split; [reflexivity|]].
  rewrite length_map, slice_length. split; [reflexivity|].
  intros i Hi.
  assert (Hd : (10 + i < List.length data)%nat) by lia.
  destruct (index_lt data (10 + i) Hd) as (b & Eb & _).
  exists b. split; [exact Eb|].
  rewrite nth_error_map. unfold slice.
  rewrite nth_error_firstn, nth_error_skipn.
  replace (i <? 16 - 10)%nat with true by (symmetry; apply Nat.ltb_lt; lia).
  rewrite Eb. simpl. now rewrite decode_phase_nibbles.
Qed.

Lemma signal_phases_witness :
  exists info l,
    decode 0x01CE [x00; x00; x02; x07; x00; x00; x0a; xff; x01; x2b; x31; x82]
      = Decoded info
    /\ type_fields info = Signals l
    /\ List.length l = 2%nat
    /\ nth_error l 1 = Some {| remaining_time := -1; signal_state := "BlinkGreen" |}.
Proof.
  destruct (signal_phases
              [x00; x00; x02; x07; x00; x00; x0a; xff; x01; x2b; x31; x82])
    as (info & l & Hd & Hf & Hl & Hp).
  - simpl. lia.
  - reflexivity.
  - exists info, l. repeat split; trivial.
    destruct (Hp 1%nat) as (b & Hb & Hn).
    + rewrite Hl. simpl. lia.
    + injection Hb as <-. exact Hn.
Defined.

(** *** Coordinates *)

Lemma be_u32_at_range (data : list byte) (off : nat) :
  0 <= be_u32_at data off < 2 ^ 32.
Proof.
  unfold be_u32_at.
  pose proof (byte_val_range (nth off data "000"%byte)).
  pose proof (byte_val_range (nth (off + 1) data "000"%byte)).
  pose proof (byte_val_range (nth (off + 2) data "000"%byte)).
  pose proof (byte_val_range (nth (off + 3) data "000"%byte)).
  lia.
Qed.

Lemma be_i32_at_range (data : list byte) (off : nat) :
  - 2 ^ 31 <= be_i32_at data off < 2 ^ 31.
Proof.
  unfold be_i32_at.
  pose proof (Z.mod_pos_bound (be_u32_at data off + 2 ^ 31) (2 ^ 32) ltac:(lia)).
  lia.
Qed.

Lemma be_i32_at_congruent (data : list byte) (off : nat) :
  be_i32_at data off mod 2 ^ 32 = be_u32_at data off.
Proof.
  unfold be_i32_at. rewrite Zminus_mod_idemp_l.
  replace (be_u32_at data off + 2 ^ 31 - 2 ^ 31) with (be_u32_at data off) by lia.
  apply Z.mod_small, be_u32_at_range.
Qed.

Lemma unpack_be_i32_short (bs : list byte) :
  List.length bs <> 4%nat -> unpack_be_i32 bs = Raise StructError.
Proof.
  destruct bs as [|b0 [|b1 [|b2 [|b3 [|b4 bs]]]]]; simpl; intros H;
    try reflexivity. now elim H.
Qed.

Lemma unpack_slice (data : list byte) (off : nat) :
  (off + 4 <= List.length data)%nat ->
  unpack_be_i32 (slice off (off + 4) data) = Ok (be_i32_at data off).
Proof.
  intros H. unfold slice. replace (off + 4 - off)%nat with 4%nat by lia.
  rewrite (skipn_cons_nth off data "000"%byte) by lia.
  rewrite (skipn_cons_nth (S off) data "000"%byte) by lia.
  rewrite (skipn_cons_nth (S (S off)) data "000"%byte) by lia.
  rewrite (skipn_cons_nth (S (S (S off))) data "000"%byte) by lia.
  cbn [firstn unpack_be_i32]. f_equal.
  replace (S off) with (off + 1)%nat by lia.
  replace (S (off + 1)) with (off + 2)%nat by lia.
  replace (S (off + 2)) with (off + 3)%nat by lia.
  fold (be_u32_at data off). unfold be_i32_at.
  pose proof (be_u32_at_range data off) as Hu.
  destruct (Z.ltb_spec (be_u32_at data off) (2 ^ 31)).
  - rewrite Z.mod_small; lia.
  - replace (be_u32_at data off + 2 ^ 31)
      with (be_u32_at data off - 2 ^ 31 + 1 * 2 ^ 32) by lia.
    rewrite Z.mod_add by lia. rewrite Z.mod_small; lia.
Qed.

Lemma process_pics_location (data : list byte) :
  (18 <= List.length data)%nat ->
  payload_type data = Some 1 ->
  exists info,
    process_pics data = Ok info
    /\ message_type info = 1
    /\ type_fields info =
         Location (int_true_div (be_i32_at data 10) 1000000)
                  (int_true_div (be_i32_at data 14) 1000000).
Proof.
  intros Hlen Ht.
  destruct (process_pics_header data) as (b2 & b3 & E2 & _ & ->); [lia|].
  rewrite (payload_type_byte _ _ _ E2 Ht). cbv zeta. simpl (1 =? _).
  change 14%nat with (10 + 4)%nat at 1. change 18%nat with (14 + 4)%nat.
  rewrite !unpack_slice by lia.
  eexists; repeat split; reflexivity.
Qed.

(** C4 as stated fails: on a type 1 payload cut before byte 18 the decoder
    raises; no error value is returned. *)
Lemma location_truncated_counterexample :
  ~ (forall data,
        (10 <= List.length data < 18)%nat -> payload_type data = Some 1 ->
        forall e, decode 0x01CE data <> Raised e).
Proof.
  intros H.
  apply (H [x00; x00; x01; x07; x00; x00; x0a; xff; x01; x2b; x00; x0f; x42; x40]
           ltac:(simpl; lia) eq_refl StructError).
  reflexivity.
Qed.

(** C4, amended. A type 1 payload of at least 10 and fewer than 18 bytes
    yields no record: unpacking the coordinates raises [struct.error].  With
    18 bytes or more the record holds latitude and longitude, the
    big-endian signed 32-bit integers at bytes [10:14] and [14:18] divided
    by 1,000,000. *)
Theorem location_decoding :
  (forall data,
      (10 <= List.length data < 18)%nat -> payload_type data = Some 1 ->
      decode 0x01CE data = Raised StructError)
  /\ (forall data,
         (18 <= List.length data)%nat -> payload_type data = Some 1 ->
         exists info,
           decode 0x01CE data = Decoded info
           /\ type_fields info =
                Location (int_true_div (be_i32_at data 10) 1000000)
                         (int_true_div (be_i32_at data 14) 1000000)
           /\ - 2 ^ 31 <= be_i32_at data 10 < 2 ^ 31
           /\ be_i32_at data 10 mod 2 ^ 32 = be_u32_at data 10
           /\ - 2 ^ 31 <= be_i32_at data 14 < 2 ^ 31
           /\ be_i32_at data 14 mod 2 ^ 32 = be_u32_at data 14).
Proof.
  split.
  - intros data Hlen Ht. rewrite decode_vendor.
    destruct (process_pics_header data) as (b2 & b3 & E2 & _ & ->); [lia|].
    rewrite (payload_type_byte _ _ _ E2 Ht). cbv zeta. simpl (1 =? _).
    destruct (Nat.lt_ge_cases (List.length data) 14) as [H14|H14].
    + rewrite (unpack_be_i32_short (slice 10 14 data)); [reflexivity|].
      rewrite slice_length. lia.
    + change 14%nat with (10 + 4)%nat at 1. rewrite unpack_slice by lia.
      simpl rbind.
      rewrite (unpack_be_i32_short (slice 14 18 data)); [reflexivity|].
      rewrite slice_length. lia.
  - intros data Hlen Ht. rewrite decode_vendor.
    destruct (process_pics_location data Hlen Ht) as (info & -> & _ & Hf).
    exists info. split; [reflexivity|]. split; [exact Hf|].
    auto using be_i32_at_range, be_i32_at_congruent.
Qed.

Lemma location_decoding_witness :
  decode 0x01CE [x00; x00; x01; x07; x00; x00; x0a; xff; x01; x2b; x00; x0f; x42; x40]
    = Raised StructError
  /\ exists info,
       decode 0x01CE [x00; x00; x01; x07; x00; x00; x0a; xff; x01; x2b;
                      x00; x0f; x42; x40; xff; xff; xff; xff] = Decoded info
       /\ type_fields info
          = Location (S754_finite false 4503599627370496 (-52))   (* 1.0 *)
                     (S754_finite true 4722366482869645 (-72)).   (* -1e-06 *)
Proof.
  destruct location_decoding as (H1 & H2).
  split.
  - apply H1; [simpl; lia|reflexivity].
  - destruct (H2 [x00; x00; x01; x07; x00; x00; x0a; xff; x01; x2b;
                  x00; x0f; x42; x40; xff; xff; xff; xff])
      as (info & Hd & Hf & _); [simpl; lia|reflexivity|].
    exists info. split; [exact Hd|exact Hf].
Defined.

(** *** Binary64 division of a 32-bit integer by 1,000,000 *)

(** [digits2_pos p] is the number of bits of [p]. *)
Lemma digits2_pos_bounds (p : positive) :
  2 ^ (Zpos (digits2_pos p) - 1) <= Zpos p < 2 ^ Zpos (digits2_pos p).
Proof.
  induction p as [p IH|p IH|]; cbn [digits2_pos].
  - rewrite Pos2Z.inj_succ.
    replace (Z.succ (Zpos (digits2_pos p)) - 1) with (Z.succ (Zpos (digits2_pos p) - 1)) by lia.
    rewrite !Z.pow_succ_r by lia. lia.
  - rewrite Pos2Z.inj_succ.
    replace (Z.succ (Zpos (digits2_pos p)) - 1) with (Z.succ (Zpos (digits2_pos p) - 1)) by lia.
    rewrite !Z.pow_succ_r by lia. lia.
  - simpl. lia.
Qed.

Lemma digits2_pos_unique (p : positive) (k : Z) :
  2 ^ (k - 1) <= Zpos p < 2 ^ k -> 0 < k -> Zpos (digits2_pos p) = k.
Proof.
  intros [Hlo Hhi] Hk.
  destruct (digits2_pos_bounds p) as [Dlo Dhi].
  destruct (Z.lt_trichotomy (Zpos (digits2_pos p)) k) as [H|[H|H]]; [|exact H|].
  - assert (2 ^ Zpos (digits2_pos p) <= 2 ^ (k - 1)) by (apply Z.pow_le_mono_r; lia). lia.
  - assert (2 ^ k <= 2 ^ (Zpos (digits2_pos p) - 1)) by (apply Z.pow_le_mono_r; lia). lia.
Qed.


Lemma iter_xO_val (p n : positive) :
  Zpos (Pos.iter xO p n) = Zpos p * 2 ^ Zpos n.
Proof.
  apply (Pos.iter_ind positive xO p (fun n a => Zpos a = Zpos p * 2 ^ Zpos n)).
  - rewrite Z.pow_1_r. lia.
  - intros k a IH. rewrite Pos2Z.inj_succ, Z.pow_succ_r by lia.
    rewrite Pos2Z.inj_xO, IH. lia.
Qed.


(** In the normal range the exponent of the last bit is 53 below. *)
Lemma fexp_normal (e : Z) : -1021 <= e -> fexp 53 1024 e = e - 53.
Proof. intros H. unfold fexp, emin. lia. Qed.

Lemma shr_fexp_keep (m : positive) (e : Z) (l : location) :
  Zpos (digits2_pos m) = 53 -> -1074 <= e ->
  shr_fexp 53 1024 (Zpos m) e l = (shr_record_of_loc (Zpos m) l, e).
Proof.
  intros Hd He. unfold shr_fexp, Zdigits2. rewrite Hd.
  rewrite fexp_normal by lia.
  replace (53 + e - 53 - e) with 0 by lia. reflexivity.
Qed.

Lemma round_aux_exact (s : bool) (m : positive) (e : Z) :
  Zpos (digits2_pos m) = 53 -> -1074 <= e <= 971 ->
  binary_round_aux 53 1024 s (Zpos m) e loc_Exact = S754_finite s m e.
Proof.
  intros Hd He. unfold binary_round_aux.
  rewrite shr_fexp_keep by (trivial; lia).
  cbn [shr_record_of_loc shr_m loc_of_shr_record round_nearest_even].
  rewrite shr_fexp_keep by (trivial; lia).
  cbn [shr_record_of_loc shr_m].
  replace (e <=? 1024 - 53) with true by (symmetry; apply Z.leb_le; lia).
  reflexivity.
Qed.

(** [float(n)] for a non-zero int of at most 53 bits: the 53-bit mantissa. *)
Lemma binary_round_int (s : bool) (p : positive) :
  Zpos p < 2 ^ 53 ->
  exists m,
    binary_round 53 1024 s p 0
    = S754_finite s m (Zpos (digits2_pos p) - 53)
    /\ Zpos m = Zpos p * 2 ^ (53 - Zpos (digits2_pos p))
    /\ Zpos (digits2_pos m) = 53.
Proof.
  intros Hp.
  destruct (digits2_pos_bounds p) as [Dlo Dhi].
  remember (Zpos (digits2_pos p)) as d eqn:Ed.
  assert (Hd : 1 <= d <= 53).
  { split; [subst d; lia|].
    destruct (Z.le_gt_cases d 53) as [H|H]; [exact H|].
    assert (2 ^ 53 <= 2 ^ (d - 1)) by (apply Z.pow_le_mono_r; lia). lia. }
  unfold binary_round, shl_align. rewrite <- Ed.
  rewrite fexp_normal by lia.
  replace (d + 0 - 53 - 0) with (d - 53) by lia.
  destruct (d - 53) as [|k|k] eqn:Hk; [|lia|].
  - assert (Hd53 : d = 53) by lia.
    exists p. rewrite round_aux_exact by lia.
    split; [reflexivity|]. split; [rewrite Hd53; cbn; lia|lia].
  - assert (Hm : Zpos (Pos.iter xO p k) = Zpos p * 2 ^ (53 - d)).
    { rewrite iter_xO_val. f_equal. f_equal. lia. }
    assert (Hdm : Zpos (digits2_pos (Pos.iter xO p k)) = 53).
    { apply digits2_pos_unique; [|lia]. rewrite Hm.
      replace (2 ^ (53 - 1)) with (2 ^ (d - 1) * 2 ^ (53 - d))
        by (rewrite <- Z.pow_add_r by lia; f_equal; lia).
      replace (2 ^ 53) with (2 ^ d * 2 ^ (53 - d))
        by (rewrite <- Z.pow_add_r by lia; f_equal; lia).
      assert (0 < 2 ^ (53 - d)) by (apply Z.pow_pos_nonneg; lia).
      nia. }
    exists (Pos.iter xO p k).
    replace (d + 0 - 53) with (Z.neg k) by lia.
    rewrite round_aux_exact by lia.
    split; [reflexivity|]. split; [exact Hm|exact Hdm].
Qed.

Lemma round_nearest_even_bounds (mx : Z) (lx : location) :
  mx <= round_nearest_even mx lx <= mx + 1.
Proof. destruct lx as [|[]]; cbn; try destruct (Z.even mx); lia. Qed.

Lemma shr_1_half (p : positive) (r s : bool) :
  shr_m (shr_1 {| shr_m := Zpos p; shr_r := r; shr_s := s |}) = Zpos p / 2.
Proof.
  destruct p as [p|p|]; cbn [shr_1 shr_m].
  - apply Z.div_unique with 1; lia.
  - apply Z.div_unique with 0; lia.
  - reflexivity.
Qed.

Lemma shr_fexp_one (m : positive) (e : Z) (l : location) :
  Zpos (digits2_pos m) = 54 -> -1074 <= e ->
  shr_fexp 53 1024 (Zpos m) e l = (shr_1 (shr_record_of_loc (Zpos m) l), e + 1).
Proof.
  intros Hd He. unfold shr_fexp, Zdigits2. rewrite Hd.
  rewrite fexp_normal by lia.
  replace (54 + e - 53 - e) with 1 by lia. reflexivity.
Qed.

(** The last step of rounding: a mantissa of 53 bits is kept, the carry
    [2^53] becomes [2^52] one exponent higher. *)
Lemma renormalize (s : bool) (m1 e : Z) :
  2 ^ 52 <= m1 <= 2 ^ 53 -> -1074 <= e <= 970 ->
  exists m e2,
    (let '(mrs, e') := shr_fexp 53 1024 m1 e loc_Exact in
     match shr_m mrs with
     | Z0 => S754_zero s
     | Zpos m => if e' <=? 1024 - 53 then S754_finite s m e' else S754_infinity s
     | Zneg _ => S754_nan
     end) = S754_finite s m e2
    /\ e <= e2 <= e + 1
    /\ 2 ^ 52 <= Zpos m < 2 ^ 53
    /\ Zpos m * 2 ^ (e2 - e) = m1.
Proof.
  intros Hm He.
  destruct m1 as [|p|p]; [cbn in Hm; lia| |cbn in Hm; lia].
  destruct (Z.eq_dec (Zpos p) (2 ^ 53)) as [Heq|Hne].
  - injection Heq as ->.
    rewrite shr_fexp_one by (trivial; lia).
    cbn [shr_record_of_loc shr_1 shr_m].
    replace (e + 1 <=? 1024 - 53) with true by (symmetry; apply Z.leb_le; lia).
    eexists; eexists. split; [reflexivity|].
    replace (e + 1 - e) with 1 by lia. cbn. lia.
  - assert (Hd : Zpos (digits2_pos p) = 53)
      by (apply digits2_pos_unique; [cbn in *|]; lia).
    rewrite shr_fexp_keep by (trivial; lia).
    cbn [shr_record_of_loc shr_m].
    replace (e <=? 1024 - 53) with true by (symmetry; apply Z.leb_le; lia).
    exists p, e. split; [reflexivity|].
    rewrite Z.sub_diag. cbn in *. lia.
Qed.

Lemma loc_of_shr_record_of_loc (m : Z) (l : location) :
  loc_of_shr_record (shr_record_of_loc m l) = l.
Proof. destruct l as [|[]]; reflexivity. Qed.

(** Rounding a quotient of 53 or 54 bits: the result is a 53-bit mantissa
    at most two exponents higher, not above the quotient by more than 2
    units of the quotient. *)
Lemma round_aux_bounds (s : bool) (q e : Z) (l : location) :
  2 ^ 52 <= q < 2 ^ 54 -> -1074 <= e <= 960 ->
  exists m e2,
    binary_round_aux 53 1024 s q e l = S754_finite s m e2
    /\ e <= e2 <= e + 2
    /\ 2 ^ 52 <= Zpos m < 2 ^ 53
    /\ Zpos m * 2 ^ (e2 - e) <= q + 2.
Proof.
  intros Hq He.
  destruct q as [|p|p]; [cbn in Hq; lia| |cbn in Hq; lia].
  unfold binary_round_aux.
  destruct (Z.lt_ge_cases (Zpos p) (2 ^ 53)) as [Hlt|Hge].
  - assert (Hd : Zpos (digits2_pos p) = 53)
      by (apply digits2_pos_unique; [cbn in *|]; lia).
    rewrite shr_fexp_keep by (trivial; lia).
    rewrite loc_of_shr_record_of_loc.
    replace (shr_m (shr_record_of_loc (Zpos p) l)) with (Zpos p)
      by (destruct l as [|[]]; reflexivity).
    pose proof (round_nearest_even_bounds (Zpos p) l) as Hr.
    destruct (renormalize s (round_nearest_even (Zpos p) l) e)
      as (m & e2 & -> & He2 & Hm & Hv); [cbn in *; lia|lia|].
    exists m, e2. split; [reflexivity|]. split; [lia|]. split; [exact Hm|lia].
  - assert (Hd : Zpos (digits2_pos p) = 54)
      by (apply digits2_pos_unique; [cbn in *|]; lia).
    rewrite shr_fexp_one by (trivial; lia).
    set (mrs := shr_1 (shr_record_of_loc (Zpos p) l)).
    assert (Hhalf : shr_m mrs = Zpos p / 2).
    { unfold mrs. destruct l as [|[]]; apply shr_1_half. }
    pose proof (round_nearest_even_bounds (shr_m mrs) (loc_of_shr_record mrs)) as Hr.
    rewrite Hhalf in Hr.
    assert (Hh : 2 ^ 52 <= Zpos p / 2 < 2 ^ 53).
    { split; [apply Z.div_le_lower_bound|apply Z.div_lt_upper_bound];
        cbn in *; lia. }
    assert (H2 : 2 * (Zpos p / 2) <= Zpos p).
    { apply Z.mul_div_le. lia. }
    destruct (renormalize s (round_nearest_even (shr_m mrs) (loc_of_shr_record mrs)) (e + 1))
      as (m & e2 & -> & He2 & Hm & Hv); [rewrite Hhalf; cbn in *; lia|lia|].
    exists m, e2. split; [reflexivity|]. split; [lia|]. split; [exact Hm|].
    replace (e2 - e) with (1 + (e2 - (e + 1))) by lia.
    rewrite Z.pow_add_r by lia. rewrite Z.pow_1_r.
    rewrite Hhalf in Hv. nia.
Qed.

(** The quotient of an int of magnitude at most 2^31 - 2 is below the
    upper bound in magnitude: its exponent is smaller, or equal with a
    mantissa that is not larger. *)
Lemma quotient_bound (s : bool) (a : positive) :
  Zpos a <= 2 ^ 31 - 2 ->
  exists m e,
    SFdiv 53 1024 (binary_round 53 1024 s a 0) (float_of_int 1000000)
    = S754_finite s m e
    /\ (e < -41 \/ (e = -41 /\ Zpos m <= 4722366480670622)).
Proof.
  intros Ha.
  destruct (binary_round_int s a) as (mx & -> & Hmx & Hdx); [cbn in *; lia|].
  destruct (digits2_pos_bounds a) as [Dlo Dhi].
  remember (Zpos (digits2_pos a)) as da eqn:Eda.
  assert (Hda : 1 <= da <= 31).
  { split; [subst da; lia|].
    destruct (Z.le_gt_cases da 31) as [H|H]; [exact H|].
    assert (2 ^ 31 <= 2 ^ (da - 1)) by (apply Z.pow_le_mono_r; lia).
    cbn in *. lia. }
  change (float_of_int 1000000) with (S754_finite false 8589934592000000 (-33)).
  unfold SFdiv, SFdiv_core_binary, Zdigits2. rewrite Hdx.
  change (Zpos (digits2_pos 8589934592000000)) with 53.
  rewrite xorb_false_r.
  replace (53 + (da - 53) - (53 + -33)) with (da - 20) by lia.
  rewrite fexp_normal by lia.
  replace (Z.min (da - 20 - 53) (da - 53 - -33)) with (da - 73) by lia.
  replace (da - 53 - -33 - (da - 73)) with 53 by lia.
  rewrite Z.shiftl_mul_pow2 by lia.
  destruct (Z.div_eucl (Zpos mx * 2 ^ 53) 8589934592000000) as [q r] eqn:Hqr.
  assert (Hq : q = Zpos mx * 2 ^ 53 / 8589934592000000).
  { unfold Z.div. now rewrite Hqr. }
  assert (Hmx52 : 2 ^ 52 <= Zpos mx < 2 ^ 53).
  { pose proof (digits2_pos_bounds mx) as H. rewrite Hdx in H. exact H. }
  assert (Hqlo : 2 ^ 52 <= q).
  { rewrite Hq. apply Z.div_le_lower_bound; cbn in *; lia. }
  assert (Hqhi : q < 2 ^ 54).
  { rewrite Hq. apply Z.div_lt_upper_bound; cbn in *; lia. }
  assert (Hqm : q * 8589934592000000 <= Zpos mx * 2 ^ 53).
  { rewrite Hq, Z.mul_comm. apply Z.mul_div_le. lia. }
  destruct (round_aux_bounds s q (da - 73) (new_location 8589934592000000 r))
    as (m & e2 & -> & He2 & Hm & Hv); [lia|lia|].
  exists m, e2. split; [reflexivity|].
  destruct (Z.lt_ge_cases e2 (-41)) as [Hlt|Hge]; [now left|right].
  assert (Hcase : (da = 30 /\ e2 = -41) \/ (da = 31 /\ (e2 = -41 \/ e2 = -40)))
    by lia.
  destruct Hcase as [[-> ->] | [-> [ -> | -> ]]].
  - split; [reflexivity|]. cbn in *. lia.
  - split; [reflexivity|]. cbn in Hmx, Hv, Hm, Hqm |- *. lia.
  - exfalso. cbn in Hmx, Hv, Hm, Hqm. lia.
Qed.

Lemma SFleb_below (m bound : positive) (e : Z) :
  e < -41 \/ (e = -41 /\ Zpos m <= Zpos bound) ->
  SFleb (S754_finite false m e) (S754_finite false bound (-41)) = true.
Proof.
  intros H. unfold SFleb, SFcompare.
  destruct H as [H|[-> H]].
  - apply Z.compare_lt_iff in H. now rewrite H.
  - rewrite Z.compare_refl. change (Pos.compare_cont Eq m bound) with (Pos.compare m bound).
    change ((m ?= bound)%positive <> Gt) in H.
    destruct (m ?= bound)%positive; trivial. now elim H.
Qed.

Lemma SFleb_above (m bound : positive) (e : Z) :
  e < -41 \/ (e = -41 /\ Zpos m <= Zpos bound) ->
  SFleb (S754_finite true bound (-41)) (S754_finite true m e) = true.
Proof.
  intros H. unfold SFleb, SFcompare.
  destruct H as [H|[-> H]].
  - apply Z.compare_gt_iff in H. now rewrite H.
  - rewrite Z.compare_refl. change (Pos.compare_cont Eq bound m) with (Pos.compare bound m).
    change ((m ?= bound)%positive <> Gt) in H.
    rewrite Pos.compare_antisym.
    destruct (m ?= bound)%positive; trivial. now elim H.
Qed.

(** Every signed 32-bit integer divided by 1,000,000 lies between the two
    bounds, in the order of binary64. *)
Lemma int_true_div_range (v : Z) :
  - 2 ^ 31 <= v < 2 ^ 31 ->
  SFleb coordinate_min (int_true_div v 1000000) = true
  /\ SFleb (int_true_div v 1000000) coordinate_max = true.
Proof.
  intros Hv. destruct v as [|a|a].
  - split; reflexivity.
  - destruct (Z.eq_dec (Zpos a) (2 ^ 31 - 1)) as [E|N].
    + injection E as ->. split; reflexivity.
    + destruct (quotient_bound false a) as (m & e & Hd & Hb); [cbn in *; lia|].
      unfold int_true_div. change (float_of_int (Zpos a)) with (binary_round 53 1024 false a 0).
      rewrite Hd. split; [reflexivity|]. now apply SFleb_below.
  - destruct (Z.eq_dec (Zpos a) (2 ^ 31)) as [E|N1].
    + injection E as ->. split; reflexivity.
    + destruct (Z.eq_dec (Zpos a) (2 ^ 31 - 1)) as [E|N2].
      * injection E as ->. split; reflexivity.
      * destruct (quotient_bound true a) as (m & e & Hd & Hb).
        { assert (Zpos a <= 2 ^ 31) by lia. cbn in *. lia. }
        unfold int_true_div.
        change (float_of_int (Zneg a)) with (binary_round 53 1024 true a 0).
        rewrite Hd. split; [|reflexivity].
        apply SFleb_above. destruct Hb as [Hb|[He Hb]]; [now left|right].
        split; [exact He|]. lia.
Qed.

(** The bounds are the quotients of the two ends of the signed 32-bit
    range; the upper one is the exact quotient rounded up. *)
Lemma coordinate_bounds_attained :
  int_true_div (- 2 ^ 31) 1000000 = coordinate_min
  /\ int_true_div (2 ^ 31 - 1) 1000000 = coordinate_max
  /\ (2 ^ 31 - 1) * 2 ^ 41 < 4722366480670622 * 1000000.
Proof. split; [reflexivity|]. split; [reflexivity|]. reflexivity. Qed.

(** C10. On a type 1 payload of at least 18 bytes the decoded latitude and
    longitude lie between the doubles -2147.483648 and 2147.483647, the
    values at the two ends of the signed 32-bit range; nothing restricts
    them to geographic ranges: a latitude above 90 and a longitude above 180
    are returned for some payload. *)
Theorem coordinate_range :
  (forall data info lat lon,
      (18 <= List.length data)%nat -> payload_type data = Some 1 ->
      decode 0x01CE data = Decoded info ->
      type_fields info = Location lat lon ->
      (SFleb coordinate_min lat = true /\ SFleb lat coordinate_max = true)
      /\ (SFleb coordinate_min lon = true /\ SFleb lon coordinate_max = true))
  /\ (exists data info lat lon,
         (18 <= List.length data)%nat /\ payload_type data = Some 1
         /\ decode 0x01CE data = Decoded info
         /\ type_fields info = Location lat lon
         /\ SFltb (float_of_int 90) lat = true
         /\ SFltb (float_of_int 180) lon = true).
Proof.
  split.
  - intros data info lat lon Hlen Ht Hd Hf.
    rewrite decode_vendor in Hd.
    destruct (process_pics_location data Hlen Ht) as (info' & E & _ & Hf').
    rewrite E in Hd. injection Hd as <-. rewrite Hf' in Hf.
    injection Hf as <- <-.
    split; apply int_true_div_range, be_i32_at_range.
  - exists [x00; x00; x01; x07; x00; x00; x0a; xff; x01; x2b;
            x7f; xff; xff; xff; x7f; xff; xff; xff].
    eexists; eexists; eexists.
    split; [simpl; lia|]. split; [reflexivity|].
    split; [reflexivity|]. split; [reflexivity|].
    split; reflexivity.
Qed.

Lemma coordinate_range_witness :
  let one := S754_finite false 4503599627370496 (-52) in
  let minus_millionth := S754_finite true 4722366482869645 (-72) in
  (SFleb coordinate_min one = true /\ SFleb one coordinate_max = true)
  /\ (SFleb coordinate_min minus_millionth = true
      /\ SFleb minus_millionth coordinate_max = true).
Proof.
  intros one minus_millionth.
  apply (proj1 coordinate_range
           [x00; x00; x01; x07; x00; x00; x0a; xff; x01; x2b;
            x00; x0f; x42; x40; xff; xff; xff; xff]
           {| message_type := 1; message_id := 7; intersection_id := "0AFF012B";
              type_fields := Location one minus_millionth |}).
  - simpl. lia.
  - reflexivity.
  - reflexivity.
  - reflexivity.
Defined.

(** *** The identifier *)

Lemma utf8_decode_ignore_ascii (s : list byte) :
  Forall (fun b => byte_val b < 0x80) s -> utf8_decode_ignore s = map byte_val s.
Proof.
  induction 1 as [|b s Hb _ IH]; simpl.
  - reflexivity.
  - destruct (Z.ltb_spec (byte_val b) 0x80); [|lia]. now rewrite IH.
Qed.

Lemma lstrip_nul_spec (s : list Z) :
  exists pre,
    s = pre ++ lstrip_nul s
    /\ Forall (fun c => c = 0) pre
    /\ hd 1 (lstrip_nul s) <> 0.
Proof.
  induction s as [|c s (pre & E & Hpre & Hhd)]; simpl.
  - exists []. repeat split; [constructor|lia].
  - destruct (Z.eqb_spec c 0) as [->|Hc].
    + exists (0 :: pre). simpl. rewrite <- E. repeat split; auto.
    + exists []. repeat split; auto.
Qed.

Lemma rstrip_nul_spec (s : list Z) :
  exists post,
    s = rstrip_nul s ++ post
    /\ Forall (fun c => c = 0) post
    /\ last (rstrip_nul s) 1 <> 0.
Proof.
  unfold rstrip_nul.
  destruct (lstrip_nul_spec (rev s)) as (pre & E & Hpre & Hhd).
  exists (rev pre). split; [|split].
  - rewrite <- rev_app_distr, <- E. symmetry. apply rev_involutive.
  - apply Forall_rev, Hpre.
  - destruct (lstrip_nul (rev s)) as [|c r]; simpl in *; [lia|].
    now rewrite last_last.
Qed.

Lemma strip_nul_spec (s : list Z) :
  exists pre post,
    s = pre ++ strip_nul s ++ post
    /\ Forall (fun c => c = 0) pre
    /\ Forall (fun c => c = 0) post
    /\ hd 1 (strip_nul s) <> 0
    /\ last (strip_nul s) 1 <> 0.
Proof.
  unfold strip_nul.
  destruct (lstrip_nul_spec s) as (pre & E & Hpre & Hhd).
  destruct (rstrip_nul_spec (lstrip_nul s)) as (post & E' & Hpost & Hlast).
  exists pre, post. repeat split; trivial.
  - now rewrite <- E'.
  - destruct (rstrip_nul (lstrip_nul s)) as [|c r]; simpl; [lia|].
    rewrite E' in Hhd. exact Hhd.
Qed.

(** C8 as stated fails: a NUL before the text is removed as well. *)
Lemma identifier_rstrip_counterexample :
  ~ (forall data,
        (10 <= List.length data)%nat -> payload_type data = Some 0 ->
        exists info,
          decode 0x01CE data = Decoded info
          /\ type_fields info =
               Identifier (rstrip_nul (utf8_decode_ignore (slice 10 24 data)))).
Proof.
  intros H.
  destruct (H [x00; x00; x00; x07; x00; x00; x0a; xff; x01; x2b; x00; x41; x00])
    as (info & Hd & Hf); [simpl; lia|reflexivity|].
  injection Hd as <-. discriminate Hf.
Qed.

(** C8, amended. On a type 0 payload of at least 10 bytes the identifier is
    the text decoded from [data[10:24]], malformed bytes left out, with the
    NUL characters at both ends removed: the decoded text is the identifier
    between a run of NULs and a run of NULs, and the identifier neither
    starts nor ends with NUL.  The decoding is total: no byte content makes
    it fail. *)
Theorem identifier_decoding (data : list byte) :
  (10 <= List.length data)%nat ->
  payload_type data = Some 0 ->
  exists info ident pre post,
    decode 0x01CE data = Decoded info
    /\ type_fields info = Identifier ident
    /\ ident = strip_nul (utf8_decode_ignore (slice 10 24 data))
    /\ utf8_decode_ignore (slice 10 24 data) = pre ++ ident ++ post
    /\ Forall (fun c => c = 0) pre
    /\ Forall (fun c => c = 0) post
    /\ hd 1 ident <> 0
    /\ last ident 1 <> 0.
Proof.
  intros Hlen Ht. rewrite decode_vendor.
  destruct (process_pics_header data) as (b2 & b3 & E2 & _ & ->); [lia|].
  rewrite (payload_type_byte _ _ _ E2 Ht). cbv zeta. simpl (0 =? _).
  destruct (strip_nul_spec (utf8_decode_ignore (slice 10 24 data)))
    as (pre & post & E & Hpre & Hpost & Hhd & Hlast).
  eexists; exists (strip_nul (utf8_decode_ignore (slice 10 24 data))), pre, post.
  split; [reflexivity|]. split; [reflexivity|]. split; [reflexivity|].
  repeat split; assumption.
Qed.

Lemma identifier_decoding_witness :
  exists info ident pre post,
    decode 0x01CE [x00; x00; x00; x07; x00; x00; x0a; xff; x01; x2b;
                   x00; x41; xff; x42; x00] = Decoded info
    /\ type_fields info = Identifier ident
    /\ ident = [0x41; 0x42]
    /\ utf8_decode_ignore [x00; x41; xff; x42; x00] = pre ++ ident ++ post
    /\ Forall (fun c => c = 0) pre
    /\ Forall (fun c => c = 0) post
    /\ hd 1 ident <> 0
    /\ last ident 1 <> 0.
Proof.
  apply (identifier_decoding
           [x00; x00; x00; x07; x00; x00; x0a; xff; x01; x2b;
            x00; x41; xff; x42; x00]).
  - simpl. lia.
  - reflexivity.
Defined.

(** * Properties of the tracker *)

Ltac run_callback :=
  unfold handle, display, ingest, show_signal, show_monitor, show_history,
    bind, print, modify, get, lift, ret, datetime_now;
  cbn [fst snd latest_info latest_raw latest_timestamp last_signal_info
       log_history ticks stdout set_latest set_latest_timestamp
       set_last_signal_info log_history_append].

Lemma frames_ret {A : Type} (a : A) : frames (ret a).
Proof. intros w. split; reflexivity. Qed.

Lemma frames_lift {A : Type} (r : result A) : frames (lift r).
Proof. intros w. split; reflexivity. Qed.

Lemma frames_get : frames get.
Proof. intros w. split; reflexivity. Qed.

Lemma frames_print (o : output) : frames (print o).
Proof. intros w. split; reflexivity. Qed.

Lemma frames_now (clock : nat -> Z) : frames (datetime_now clock).
Proof. intros w. split; reflexivity. Qed.

Lemma frames_bind {A B : Type} (m : M A) (k : A -> M B) :
  frames m -> (forall a, frames (k a)) -> frames (bind m k).
Proof.
  intros Hm Hk w. unfold bind.
  destruct (Hm w) as [H1 H2].
  destruct (m w) as [w1 [a|e]]; cbn [fst] in *.
  - destruct (Hk a w1) as [H3 H4]. split; congruence.
  - split; assumption.
Qed.

Create HintDb frames.
#[local] Hint Resolve frames_ret frames_lift frames_get frames_print
  frames_now frames_bind : frames.

Ltac frame_step :=
  match goal with
  | |- frames (bind _ _) => apply frames_bind; [|intro]
  | |- frames (match ?x with _ => _ end) => destruct x
  | |- frames _ => solve [auto with frames]
  end.

(** The screen part of the callback reads the tracker and changes none of
    its fields. *)
Lemma display_frame (clock : nat -> Z) (info : pics_info) (data : list byte) :
  frames (display clock info data).
Proof.
  unfold display, show_signal, show_monitor, show_history.
  repeat frame_step.
Qed.

Lemma current_display_eq (w w' : world) :
  last_signal_info w' = last_signal_info w -> current_display w' = current_display w.
Proof. unfold current_display. now intros ->. Qed.

Lemma display_ok (clock : nat -> Z) (info : pics_info) (data : list byte)
      (w : world) (d : option (phase * phase)) (t : Z) :
  current_display w = Ok d -> latest_timestamp w = Some t ->
  exists w',
    display clock info data w = (w', Ok tt) /\ ticks w' = S (ticks w).
Proof.
  intros Hd Ht. run_callback.
  rewrite (current_display_eq w) by reflexivity. rewrite Hd.
  destruct d as [[p q]|]; cbn [latest_timestamp ticks]; rewrite ?Ht;
    eexists; split; reflexivity.
Qed.

Lemma ingest_other (clock : nat -> Z) (info : pics_info) (data : list byte) (w : world) :
  message_type info <> 2 ->
  exists w',
    ingest clock info data w = (w', Ok tt)
    /\ last_signal_info w' = last_signal_info w
    /\ log_history w' = log_history w
    /\ latest_info w' = Some info
    /\ latest_timestamp w' = Some (clock (ticks w)).
Proof.
  intros Ht. run_callback.
  destruct (Z.eqb_spec (message_type info) 2); [contradiction|].
  eexists; repeat split; reflexivity.
Qed.

Lemma ingest_signal (clock : nat -> Z) (info : pics_info) (data : list byte)
      (w : world) (p0 p1 : phase) (more : list phase) :
  message_type info = 2 ->
  type_fields info = Signals (p0 :: p1 :: more) ->
  exists w',
    ingest clock info data w = (w', Ok tt)
    /\ last_signal_info w' = Some info
    /\ log_history w' =
         deque_append (log_history w)
                      {| time := clock (ticks w); s1 := p0; s2 := p1 |}
    /\ latest_timestamp w' = Some (clock (ticks w))
    /\ ticks w' = S (ticks w).
Proof.
  intros Ht Hf. run_callback. rewrite Ht. simpl (2 =? 2).
  unfold get_pedestrian_signals. rewrite Hf. cbn.
  eexists; repeat split; reflexivity.
Qed.

Lemma ingest_signal_short (clock : nat -> Z) (info : pics_info) (data : list byte)
      (w : world) (l : list phase) :
  message_type info = 2 ->
  type_fields info = Signals l ->
  (List.length l < 2)%nat ->
  exists w',
    ingest clock info data w = (w', Raise IndexError)
    /\ last_signal_info w' = Some info
    /\ log_history w' = log_history w.
Proof.
  intros Ht Hf Hl. run_callback. rewrite Ht. simpl (2 =? 2).
  unfold get_pedestrian_signals. rewrite Hf.
  destruct l as [|p0 [|p1 l]]; [| |simpl in Hl; lia]; cbn;
    eexists; repeat split; reflexivity.
Qed.

(** Whatever the record, the update either leaves the history alone or
    appends one entry to it. *)
Lemma ingest_history (clock : nat -> Z) (info : pics_info) (data : list byte) (w : world) :
  log_history (fst (ingest clock info data w)) = log_history w
  \/ exists entry,
       log_history (fst (ingest clock info data w))
       = deque_append (log_history w) entry.
Proof.
  run_callback.
  destruct (message_type info =? 2); cbn; [|now left].
  destruct (get_pedestrian_signals info) as [l|e]; cbn; [|now left].
  destruct (index l 0) as [p0|e0]; cbn; [|now left].
  destruct (index l 1) as [p1|e1]; cbn; [|now left].
  right. eexists. reflexivity.
Qed.

Lemma handle_fst (clock : nat -> Z) (info : pics_info) (data : list byte) (w : world) :
  last_signal_info (fst (handle clock info data w))
  = last_signal_info (fst (ingest clock info data w))
  /\ log_history (fst (handle clock info data w))
     = log_history (fst (ingest clock info data w)).
Proof.
  unfold handle, bind.
  destruct (ingest clock info data w) as [w1 [[]|e]]; cbn [fst]; auto.
  apply display_frame.
Qed.

Lemma process_pics_type (data : list byte) (info : pics_info) :
  process_pics data = Ok info -> payload_type data = Some (message_type info).
Proof.
  intros H.
  destruct (Nat.lt_ge_cases (List.length data) 4) as [Hs|Hl].
  - rewrite process_pics_short in H by assumption. discriminate.
  - destruct (process_pics_header data Hl) as (b2 & b3 & E2 & _ & E).
    rewrite E in H. clear E. unfold payload_type. rewrite E2. simpl. f_equal.
    cbv zeta in H.
    destruct (byte_val b2 =? 0); [now injection H as <-|].
    destruct (byte_val b2 =? 1).
    + destruct (unpack_be_i32 (slice 10 14 data)); [|discriminate].
      destruct (unpack_be_i32 (slice 14 18 data)); [|discriminate].
      simpl in H. now injection H as <-.
    + destruct (byte_val b2 =? 2); now injection H as <-.
Qed.

Lemma process_pics_signal (data : list byte) :
  signal_payload data ->
  exists info more,
    process_pics data = Ok info
    /\ message_type info = 2
    /\ type_fields info =
         Signals (decode_phase (byte_val (nth 10 data "000"%byte))
                  :: decode_phase (byte_val (nth 11 data "000"%byte)) :: more).
Proof.
  intros [Ht Hlen].
  destruct (process_pics_header data) as (b2 & b3 & E2 & _ & ->); [lia|].
  rewrite (payload_type_byte _ _ _ E2 Ht). cbv zeta. simpl (2 =? _).
  rewrite signals_loop_map. unfold slice.
  rewrite (skipn_cons_nth 10 data "000"%byte) by lia.
  rewrite (skipn_cons_nth 11 data "000"%byte) by lia.
  cbn [Nat.sub firstn map].
  eexists; eexists; repeat split; reflexivity.
Qed.

Lemma callback_one (clock : nat -> Z) (data : list byte) (info : pics_info) (w : world) :
  process_pics data = Ok info ->
  detection_callback clock [(0x01CE, data)] w
  = bind (handle clock info data) (fun _ => ret tt) w.
Proof.
  intros H. cbn [detection_callback]. rewrite decode_vendor, H. reflexivity.
Qed.

Lemma callback_signal (clock : nat -> Z) (data : list byte) (w : world) :
  signal_payload data ->
  exists info w',
    process_pics data = Ok info
    /\ detection_callback clock [(0x01CE, data)] w = (w', Ok tt)
    /\ last_signal_info w' = Some info
    /\ log_history w'
       = deque_append (log_history w) (entry_of (clock (ticks w)) data)
    /\ ticks w' = S (S (ticks w))
    /\ current_display w'
       = Ok (Some (decode_phase (byte_val (nth 10 data "000"%byte)),
                   decode_phase (byte_val (nth 11 data "000"%byte)))).
Proof.
  intros Hs.
  destruct (process_pics_signal data Hs) as (info & more & Hp & Ht & Hf).
  destruct (ingest_signal clock info data w _ _ _ Ht Hf)
    as (w1 & Hi & Hlast & Hlog & Hts & Hticks).
  assert (Hd : current_display w1
               = Ok (Some (decode_phase (byte_val (nth 10 data "000"%byte)),
                           decode_phase (byte_val (nth 11 data "000"%byte))))).
  { unfold current_display, get_pedestrian_signals. rewrite Hlast, Hf.
    reflexivity. }
  destruct (display_ok clock info data w1 _ _ Hd Hts) as (w2 & Hdisp & Hticks2).
  destruct (display_frame clock info data w1) as [Hl2 Hh2].
  rewrite Hdisp in Hl2, Hh2. cbn [fst] in Hl2, Hh2.
  exists info, w2. split; [exact Hp|].
  split.
  { rewrite (callback_one clock data info w Hp). unfold handle, bind.
    rewrite Hi, Hdisp. reflexivity. }
  split; [congruence|]. split; [unfold entry_of; congruence|].
  split; [congruence|].
  rewrite (current_display_eq w1 w2) by assumption. exact Hd.
Qed.

Lemma callback_non_signal (clock : nat -> Z) (ad : list (Z * list byte)) :
  Forall non_signal ad ->
  forall w,
    last_signal_info (fst (detection_callback clock ad w)) = last_signal_info w
    /\ log_history (fst (detection_callback clock ad w)) = log_history w.
Proof.
  induction 1 as [|[v data] ad Hns _ IH]; intros w.
  - split; reflexivity.
  - cbn [detection_callback]. unfold decode.
    destruct (Z.eqb_spec v 0x01CE) as [->|Hv]; cbn [negb]; [|apply IH].
    destruct (process_pics data) as [info|e] eqn:Hp; [|split; reflexivity].
    assert (Ht : message_type info <> 2).
    { destruct Hns as [Hv|Ht]; [now elim Hv|].
      cbn [snd] in Ht. rewrite (process_pics_type data info Hp) in Ht.
      congruence. }
    destruct (ingest_other clock info data w Ht) as (w1 & Hi & Hl & Hh & _).
    destruct (handle_fst clock info data w) as [H1 H2].
    rewrite Hi in H1, H2. cbn [fst] in H1, H2.
    unfold bind.
    destruct (handle clock info data w) as [w2 [[]|e]]; cbn [fst] in *.
    + destruct (IH w2) as [H3 H4]. split; congruence.
    + split; congruence.
Qed.

Lemma feed_non_signal (clock : nat -> Z) (ads : list (list (Z * list byte))) :
  Forall (Forall non_signal) ads ->
  forall w,
    last_signal_info (feed clock ads w) = last_signal_info w
    /\ log_history (feed clock ads w) = log_history w.
Proof.
  induction 1 as [|ad ads Had _ IH]; intros w.
  - split; reflexivity.
  - cbn [feed fold_left].
    destruct (IH (fst (detection_callback clock ad w))) as [H1 H2].
    destruct (callback_non_signal clock ad Had w) as [H3 H4].
    unfold feed in *. split; congruence.
Qed.

(** C3. A type 2 record with fewer than two phases makes the callback fail:
    [last_signal_info] is set to the record, nothing is appended to
    [log_history], and reading the missing phase raises IndexError, here and
    at every later reading of the retained display. *)
Theorem short_signal_ingest_raises (clock : nat -> Z) (data : list byte)
        (info : pics_info) (l : list phase) (w : world) :
  decode 0x01CE data = Decoded info ->
  message_type info = 2 ->
  type_fields info = Signals l ->
  (List.length l < 2)%nat ->
  exists w',
    detection_callback clock [(0x01CE, data)] w = (w', Raise IndexError)
    /\ last_signal_info w' = Some info
    /\ log_history w' = log_history w
    /\ current_display w' = Raise IndexError.
Proof.
  intros Hd Ht Hf Hl. rewrite decode_vendor in Hd.
  destruct (process_pics data) as [info'|e] eqn:Hp; [|discriminate].
  injection Hd as ->.
  destruct (ingest_signal_short clock info data w l Ht Hf Hl)
    as (w1 & Hi & Hlast & Hlog).
  exists w1. rewrite (callback_one clock data info w Hp).
  unfold handle, bind. rewrite Hi.
  repeat split; trivial.
  unfold current_display, get_pedestrian_signals. rewrite Hlast, Hf.
  destruct l as [|p0 [|p1 l]]; [reflexivity|reflexivity|simpl in Hl; lia].
Qed.

Lemma short_signal_ingest_raises_witness :
  exists w',
    detection_callback Z.of_nat
      [(0x01CE, [x00; x00; x02; x07; x00; x00; x0a; xff; x01; x2b; x31])] initial
    = (w', Raise IndexError)
    /\ last_signal_info w'
       = Some {| message_type := 2; message_id := 7; intersection_id := "0AFF012B";
                 type_fields :=
                   Signals [{| remaining_time := 4; signal_state := "Red" |}] |}
    /\ log_history w' = log_history initial
    /\ current_display w' = Raise IndexError.
Proof.
  apply (short_signal_ingest_raises Z.of_nat
           [x00; x00; x02; x07; x00; x00; x0a; xff; x01; x2b; x31] _
           [{| remaining_time := 4; signal_state := "Red" |}] initial).
  - reflexivity.
  - reflexivity.
  - reflexivity.
  - simpl. lia.
Defined.

(** C5. Hold-last-value.  A callback whose entries are all other than type 2
    messages of manufacturer 0x01CE leaves [last_signal_info] and
    [log_history] as they were; so after a signal payload with two phases or
    more, followed by any such advertisements, the retained display is still
    the first two phases of that payload.  The display is empty exactly when
    no signal record is retained. *)
Theorem hold_last_value :
  (forall clock ad w,
      Forall non_signal ad ->
      last_signal_info (fst (detection_callback clock ad w)) = last_signal_info w
      /\ log_history (fst (detection_callback clock ad w)) = log_history w)
  /\ (forall clock data others w,
         signal_payload data ->
         Forall (Forall non_signal) others ->
         current_display (feed clock ([(0x01CE, data)] :: others) w)
         = Ok (Some (decode_phase (byte_val (nth 10 data "000"%byte)),
                     decode_phase (byte_val (nth 11 data "000"%byte)))))
  /\ (forall w, current_display w = Ok None <-> last_signal_info w = None).
Proof.
  split; [|split].
  - intros clock ad w Had. now apply callback_non_signal.
  - intros clock data others w Hs Ho.
    destruct (callback_signal clock data w Hs)
      as (info & w1 & _ & Hcb & _ & _ & _ & Hd).
    cbn [feed fold_left]. rewrite Hcb. cbn [fst].
    destruct (feed_non_signal clock others Ho w1) as [Hl _].
    unfold feed in Hl. now rewrite (current_display_eq w1 _ Hl).
  - intros w. unfold current_display. split.
    + destruct (last_signal_info w) as [info|]; [|reflexivity].
      destruct (get_pedestrian_signals info) as [l|e]; [|discriminate].
      cbn. destruct (index l 0); [|discriminate].
      cbn. destruct (index l 1); discriminate.
    + now intros ->.
Qed.

Lemma hold_last_value_witness :
  current_display
    (feed Z.of_nat
          [[(0x01CE, [x00; x00; x02; x07; x00; x00; x0a; xff; x01; x2b; x31; x82])];
           [(0x01CE, [x00; x00; x00; x07; x00; x00; x0a; xff; x01; x2b; x41])];
           [(0x004C, [x02; x15])]]
          initial)
  = Ok (Some ({| remaining_time := 4; signal_state := "Red" |},
              {| remaining_time := -1; signal_state := "BlinkGreen" |})).
Proof.
  apply (proj1 (proj2 hold_last_value) Z.of_nat
           [x00; x00; x02; x07; x00; x00; x0a; xff; x01; x2b; x31; x82]).
  - split; [reflexivity|simpl; lia].
  - apply Forall_cons; [|apply Forall_cons; [|apply Forall_nil]].
    + apply Forall_cons; [|apply Forall_nil]. right. simpl. discriminate.
    + apply Forall_cons; [|apply Forall_nil]. left. simpl. lia.
Defined.

(** *** The history deque *)

Lemma lastn_all {A : Type} (n : nat) (l : list A) :
  (List.length l <= n)%nat -> lastn n l = l.
Proof.
  intros H. unfold lastn.
  replace (List.length l - n)%nat with 0%nat by lia. reflexivity.
Qed.

Lemma lastn_length {A : Type} (n : nat) (l : list A) :
  List.length (lastn n l) = Nat.min n (List.length l).
Proof. unfold lastn. rewrite length_skipn. lia. Qed.

Lemma lastn_app {A : Type} (n : nat) (a b : list A) :
  lastn n (lastn n a ++ b) = lastn n (a ++ b).
Proof.
  destruct (Nat.le_gt_cases (List.length a) n) as [Hle|Hgt].
  - now rewrite (lastn_all n a Hle).
  - unfold lastn at 1 3. rewrite !length_app, lastn_length.
    replace (Nat.min n (List.length a) + List.length b - n)%nat
      with (List.length b) by lia.
    replace (List.length a + List.length b - n)%nat
      with (List.length b + (List.length a - n))%nat by lia.
    rewrite <- skipn_skipn, (skipn_app (List.length a - n) a b).
    replace (List.length a - n - List.length a)%nat with 0%nat by lia.
    reflexivity.
Qed.

Lemma deque_append_items {A : Type} (d : deque A) (x : A) :
  maxlen d = 5%nat -> (List.length (items d) <= 5)%nat ->
  maxlen (deque_append d x) = 5%nat
  /\ items (deque_append d x) = lastn 5 (items d ++ [x]).
Proof.
  intros Hm Hl. unfold deque_append. rewrite Hm. cbn [Nat.eqb].
  destruct (Nat.ltb_spec (List.length (items d)) 5) as [Hlt|Hge];
    cbn [maxlen items]; (split; [reflexivity|]).
  - rewrite lastn_all; [reflexivity|]. rewrite length_app. simpl. lia.
  - unfold lastn. rewrite length_app. cbn [List.length].
    replace (List.length (items d) + 1 - 5)%nat with 1%nat by lia.
    destruct (items d) as [|y l]; [simpl in Hge; lia|]. reflexivity.
Qed.

Lemma deque_append_ok {A : Type} (d : deque A) (x : A) :
  maxlen d = 5%nat -> (List.length (items d) <= 5)%nat ->
  maxlen (deque_append d x) = 5%nat
  /\ (List.length (items (deque_append d x)) <= 5)%nat.
Proof.
  intros Hm Hl. destruct (deque_append_items d x Hm Hl) as [H1 H2].
  split; [exact H1|]. rewrite H2, lastn_length. lia.
Qed.

Lemma handle_history_ok (clock : nat -> Z) (info : pics_info) (data : list byte) (w : world) :
  history_ok w -> history_ok (fst (handle clock info data w)).
Proof.
  intros [Hm Hl]. unfold history_ok.
  destruct (handle_fst clock info data w) as [_ ->].
  destruct (ingest_history clock info data w) as [->|[entry ->]].
  - split; assumption.
  - now apply deque_append_ok.
Qed.

Lemma callback_history_ok (clock : nat -> Z) (ad : list (Z * list byte)) :
  forall w, history_ok w -> history_ok (fst (detection_callback clock ad w)).
Proof.
  induction ad as [|[v data] ad IH]; intros w Hw.
  - exact Hw.
  - cbn [detection_callback].
    destruct (decode v data) as [|e|info]; [now apply IH|exact Hw|].
    pose proof (handle_history_ok clock info data w Hw) as H1.
    unfold bind.
    destruct (handle clock info data w) as [w1 [[]|e]]; cbn [fst] in *.
    + now apply IH.
    + exact H1.
Qed.

Lemma feed_signals (clock : nat -> Z) (payloads : list (list byte)) :
  Forall signal_payload payloads ->
  forall w,
    history_ok w ->
    history_ok (feed clock (pics_ads payloads) w)
    /\ items (log_history (feed clock (pics_ads payloads) w))
       = lastn 5 (items (log_history w) ++ entries clock (ticks w) payloads).
Proof.
  induction 1 as [|data payloads Hs _ IH]; intros w Hw.
  - split; [exact Hw|]. cbn. rewrite app_nil_r.
    symmetry. apply lastn_all, Hw.
  - cbn [pics_ads map feed fold_left entries].
    destruct (callback_signal clock data w Hs)
      as (info & w1 & _ & Hcb & _ & Hlog & Hticks & _).
    rewrite Hcb. cbn [fst].
    destruct Hw as [Hm Hl].
    destruct (deque_append_items (log_history w)
                (entry_of (clock (ticks w)) data) Hm Hl) as [Hm1 Hi1].
    assert (Hw1 : history_ok w1).
    { unfold history_ok. rewrite Hlog. now apply deque_append_ok. }
    destruct (IH w1 Hw1) as [Hok Hitems].
    unfold feed, pics_ads in *. split; [exact Hok|].
    rewrite Hitems, Hlog, Hi1, Hticks, lastn_app, <- app_assoc.
    reflexivity.
Qed.

(** C6. [log_history] never holds more than 5 entries: the bound holds at
    start and every callback keeps it.  Six consecutive signal payloads with
    two phases or more leave exactly the entries of the second to the sixth,
    in the order received; the entry of the first and all older ones are
    gone. *)
Theorem history_capacity :
  history_ok initial
  /\ (forall clock ad w,
         history_ok w -> history_ok (fst (detection_callback clock ad w)))
  /\ (forall clock w d1 d2 d3 d4 d5 d6,
         history_ok w ->
         Forall signal_payload [d1; d2; d3; d4; d5; d6] ->
         items (log_history (feed clock (pics_ads [d1; d2; d3; d4; d5; d6]) w))
         = [entry_of (clock (2 + ticks w)%nat) d2;
            entry_of (clock (4 + ticks w)%nat) d3;
            entry_of (clock (6 + ticks w)%nat) d4;
            entry_of (clock (8 + ticks w)%nat) d5;
            entry_of (clock (10 + ticks w)%nat) d6]).
Proof.
  split; [|split].
  - split; [reflexivity|simpl; lia].
  - intros clock ad w. apply callback_history_ok.
  - intros clock w d1 d2 d3 d4 d5 d6 Hw Hs.
    destruct (feed_signals clock _ Hs w Hw) as [_ ->].
    unfold lastn. rewrite length_app. cbn [entries List.length].
    destruct Hw as [_ Hl].
    replace (List.length (items (log_history w)) + 6 - 5)%nat
      with (1 + List.length (items (log_history w)))%nat by lia.
    rewrite <- skipn_skipn, skipn_app, skipn_all, Nat.sub_diag.
    reflexivity.
Qed.

Lemma history_capacity_witness :
  history_ok (fst (detection_callback Z.of_nat
                     [(0x01CE, sample_signal x31 x82)] initial))
  /\ items (log_history
              (feed Z.of_nat
                    (pics_ads [sample_signal x01 x01; sample_signal x02 x02;
                               sample_signal x03 x03; sample_signal x04 x04;
                               sample_signal x05 x05; sample_signal x06 x06])
                    initial))
     = [entry_of 2 (sample_signal x02 x02); entry_of 4 (sample_signal x03 x03);
        entry_of 6 (sample_signal x04 x04); entry_of 8 (sample_signal x05 x05);
        entry_of 10 (sample_signal x06 x06)].
Proof.
  destruct history_capacity as (H0 & H1 & H2).
  split.
  - apply H1, H0.
  - apply (H2 Z.of_nat initial); [exact H0|].
    repeat (apply Forall_cons; [split; [reflexivity|simpl; lia]|]).
    apply Forall_nil.
Defined.

(** *** The window on the history *)

Lemma filter_subsequence {A : Type} (p : A -> bool) (l : list A) :
  subsequence (filter p l) l.
Proof.
  induction l as [|x l IH]; simpl.
  - constructor.
  - destruct (p x); now constructor.
Qed.

Lemma show_history_run (clock : nat -> Z) (w : world) :
  exists w',
    show_history clock w = (w', Ok tt)
    /\ log_history w' = log_history w
    /\ stdout w'
       = stdout w ++ [HistoryRows (recent_entries (timedelta_seconds 30)
                                                  (clock (ticks w))
                                                  (log_history w))].
Proof. run_callback. eexists; repeat split; reflexivity. Qed.

(** C7. The entries shown for a window are those of the stored history
    with [now - time <= window], the bound included, in the order of the
    history; reading them leaves [log_history] as it was.  The callback
    shows the window of 30 seconds at the clock reading it takes. *)
Theorem recent_history_window :
  (forall window now log,
      recent_entries window now log
      = filter (fun entry => now - time entry <=? window) (items log))
  /\ (forall window now log entry,
         In entry (recent_entries window now log)
         <-> In entry (items log) /\ now - time entry <= window)
  /\ (forall window now log,
         subsequence (recent_entries window now log) (items log))
  /\ (forall clock w,
         exists w',
           show_history clock w = (w', Ok tt)
           /\ log_history w' = log_history w
           /\ stdout w'
              = stdout w ++ [HistoryRows (recent_entries (timedelta_seconds 30)
                                                         (clock (ticks w))
                                                         (log_history w))]).
Proof.
  split; [|split; [|split]].
  - reflexivity.
  - intros window now log entry. unfold recent_entries.
    rewrite filter_In, Z.leb_le. reflexivity.
  - intros window now log. apply filter_subsequence.
  - apply show_history_run.
Qed.

Lemma recent_history_window_witness :
  let p := {| remaining_time := 4; signal_state := "Red" |} in
  let at_seconds s := {| time := timedelta_seconds s; s1 := p; s2 := p |} in
  let log := {| maxlen := 5; items := [at_seconds 0; at_seconds 10; at_seconds 40] |} in
  recent_entries (timedelta_seconds 30) (timedelta_seconds 45) log = [at_seconds 40]
  /\ In (at_seconds 10) (recent_entries (timedelta_seconds 30) (timedelta_seconds 40) log).
Proof.
  intros p at_seconds log.
  destruct recent_history_window as (H1 & H2 & _).
  split.
  - rewrite H1. reflexivity.
  - apply H2. split; [simpl; auto|]. vm_compute. discriminate.
Defined.

(** * Further properties of the decoder *)

(** What a returned record is made of. *)
Lemma process_pics_inv (data : list byte) (info : pics_info) :
  process_pics data = Ok info ->
  exists b2 b3,
    nth_error data 2 = Some b2 /\ nth_error data 3 = Some b3
    /\ message_type info = byte_val b2
    /\ message_id info = byte_val b3
    /\ intersection_id info = join (map hex2 (slice 6 10 data))
    /\ ((byte_val b2 = 0
         /\ type_fields info
            = Identifier (strip_nul (utf8_decode_ignore (slice 10 24 data))))
        \/ (byte_val b2 = 1 /\ (18 <= List.length data)%nat
            /\ type_fields info
               = Location (int_true_div (be_i32_at data 10) 1000000)
                          (int_true_div (be_i32_at data 14) 1000000))
        \/ (byte_val b2 = 2 /\ type_fields info = Signals (signals_loop data))
        \/ (byte_val b2 <> 0 /\ byte_val b2 <> 1 /\ byte_val b2 <> 2
            /\ type_fields info = NoFields)).
Proof.
  intros H.
  destruct (Nat.lt_ge_cases (List.length data) 4) as [Hs|Hl].
  { rewrite process_pics_short in H by assumption. discriminate. }
  destruct (process_pics_header data Hl) as (b2 & b3 & E2 & E3 & E).
  rewrite E in H. clear E. cbv zeta in H.
  exists b2, b3. split; [exact E2|]. split; [exact E3|].
  destruct (Z.eqb_spec (byte_val b2) 0) as [H0|H0].
  { injection H as <-. cbn. auto 10. }
  destruct (Z.eqb_spec (byte_val b2) 1) as [H1|H1].
  { destruct (Nat.lt_ge_cases (List.length data) 18) as [Hlt|Hge].
    - exfalso.
      destruct (Nat.lt_ge_cases (List.length data) 14) as [H14|H14].
      + rewrite (unpack_be_i32_short (slice 10 14 data)) in H;
          [discriminate|rewrite slice_length; lia].
      + change 14%nat with (10 + 4)%nat in H at 1.
        rewrite unpack_slice in H by lia. simpl rbind in H.
        rewrite (unpack_be_i32_short (slice 14 18 data)) in H;
          [discriminate|rewrite slice_length; lia].
    - change 14%nat with (10 + 4)%nat in H at 1.
      change 18%nat with (14 + 4)%nat in H.
      rewrite !unpack_slice in H by lia. simpl rbind in H.
      injection H as <-. cbn. auto 10. }
  destruct (Z.eqb_spec (byte_val b2) 2) as [H2|H2];
    injection H as <-; cbn; auto 12.
Qed.

Lemma process_pics_location_short (data : list byte) :
  (4 <= List.length data < 18)%nat -> payload_type data = Some 1 ->
  process_pics data = Raise StructError.
Proof.
  intros Hlen Ht.
  destruct (process_pics_header data) as (b2 & b3 & E2 & _ & ->); [lia|].
  rewrite (payload_type_byte _ _ _ E2 Ht). cbv zeta. simpl (1 =? _).
  destruct (Nat.lt_ge_cases (List.length data) 14) as [H14|H14].
  - rewrite (unpack_be_i32_short (slice 10 14 data)); [reflexivity|].
    rewrite slice_length. lia.
  - change 14%nat with (10 + 4)%nat at 1. rewrite unpack_slice by lia.
    simpl rbind.
    rewrite (unpack_be_i32_short (slice 14 18 data)); [reflexivity|].
    rewrite slice_length. lia.
Qed.

(** X1. [process_pics] returns a record exactly when the payload has at
    least 4 bytes and, for a type 1 message, at least 18; a payload of
    fewer than 4 bytes raises IndexError, a short type 1 payload
    [struct.error], and nothing else is ever raised. *)
Theorem process_pics_failures (data : list byte) :
  ((exists info, process_pics data = Ok info)
   <-> (4 <= List.length data)%nat
       /\ (payload_type data = Some 1 -> (18 <= List.length data)%nat))
  /\ (process_pics data = Raise IndexError <-> (List.length data < 4)%nat)
  /\ (process_pics data = Raise StructError
      <-> (4 <= List.length data < 18)%nat /\ payload_type data = Some 1)
  /\ process_pics data <> Raise KeyError
  /\ process_pics data <> Raise AttributeError.
Proof.
  destruct (Nat.lt_ge_cases (List.length data) 4) as [Hs|Hl].
  { rewrite (process_pics_short data Hs).
    split; [|split; [|split; [|split]]]; try discriminate.
    - split; [intros [info H]; discriminate|intros [H _]; lia].
    - split; [intros _; exact Hs|reflexivity].
    - split; [discriminate|intros [H _]; lia]. }
  destruct (process_pics_header data Hl) as (b2 & b3 & E2 & _ & E).
  assert (Ht : payload_type data = Some (byte_val b2)).
  { unfold payload_type. now rewrite E2. }
  rewrite Ht.
  destruct (Z.eq_dec (byte_val b2) 1) as [H1|H1].
  - destruct (Nat.lt_ge_cases (List.length data) 18) as [Hlt|Hge].
    + assert (Hr : process_pics data = Raise StructError).
      { apply process_pics_location_short; [lia|]. rewrite Ht. now f_equal. }
      rewrite Hr. split; [|split; [|split; [|split]]]; try discriminate.
      * split; [intros [info H]; discriminate|].
        intros [_ H]. specialize (H ltac:(now f_equal)). lia.
      * split; [discriminate|lia].
      * split; [intros _; split; [lia|now f_equal]|reflexivity].
    + destruct (process_pics_location data Hge) as (info & Hp & _);
        [rewrite Ht; now f_equal|].
      rewrite Hp. split; [|split; [|split; [|split]]]; try discriminate.
      * split; [intros _; split; [lia|intros _; lia]|intros _; now exists info].
      * split; [discriminate|lia].
      * split; [discriminate|lia].
  - assert (Hok : exists info, process_pics data = Ok info).
    { rewrite E. cbv zeta.
      destruct (byte_val b2 =? 0); [eexists; reflexivity|].
      destruct (Z.eqb_spec (byte_val b2) 1); [contradiction|].
      destruct (byte_val b2 =? 2); eexists; reflexivity. }
    destruct Hok as [info Hp]. rewrite Hp.
    split; [|split; [|split; [|split]]]; try discriminate.
    + split; [intros _; split; [lia|]|intros _; now exists info].
      intros [= H]. contradiction.
    + split; [discriminate|lia].
    + split; [discriminate|]. intros [_ [= H]]. contradiction.
Qed.

Lemma process_pics_failures_witness :
  (exists info,
      process_pics [x00; x00; x09; x07; x00; x00; x0a; xff; x01; x2b] = Ok info)
  /\ process_pics [x00; x00; x09] = Raise IndexError
  /\ process_pics [x00; x00; x01; x07; x00; x00; x0a; xff; x01; x2b; x00; x0f; x42; x40]
     = Raise StructError.
Proof.
  split; [|split].
  - apply (proj1 (process_pics_failures
                    [x00; x00; x09; x07; x00; x00; x0a; xff; x01; x2b])).
    split; [simpl; lia|discriminate].
  - apply (proj1 (proj2 (process_pics_failures [x00; x00; x09]))).
    simpl. lia.
  - apply (proj1 (proj2 (proj2 (process_pics_failures
             [x00; x00; x01; x07; x00; x00; x0a; xff; x01; x2b; x00; x0f; x42; x40])))).
    split; [simpl; lia|reflexivity].
Defined.

(** X2. The type byte decides which keys a record has: the identifier for
    type 0, the coordinates for type 1, the phases for type 2, and for any
    other type the three header keys alone; the record carries bytes 2 and
    3 of the payload as its type and its id. *)
Theorem record_shape (data : list byte) (info : pics_info) :
  process_pics data = Ok info ->
  payload_type data = Some (message_type info)
  /\ option_map byte_val (nth_error data 3) = Some (message_id info)
  /\ match type_fields info with
     | Identifier _ => message_type info = 0
     | Location _ _ => message_type info = 1
     | Signals _ => message_type info = 2
     | NoFields =>
       message_type info <> 0 /\ message_type info <> 1 /\ message_type info <> 2
     end.
Proof.
  intros H.
  destruct (process_pics_inv data info H)
    as (b2 & b3 & E2 & E3 & Ht & Hi & _ & Hf).
  unfold payload_type. rewrite E2, E3, Ht, Hi. cbn [option_map].
  split; [reflexivity|]. split; [reflexivity|].
  destruct Hf as [[H0 ->]|[(H1 & _ & ->)|[[H2 ->]|(N0 & N1 & N2 & ->)]]]; auto.
Qed.

Lemma record_shape_witness :
  payload_type [x00; x00; x09; x07; x00; x00; x0a; xff; x01; x2b] = Some 9
  /\ option_map byte_val (nth_error [x00; x00; x09; x07; x00; x00; x0a; xff; x01; x2b] 3)
     = Some 7
  /\ (9 <> 0 /\ 9 <> 1 /\ 9 <> 2).
Proof.
  apply (record_shape [x00; x00; x09; x07; x00; x00; x0a; xff; x01; x2b]
           {| message_type := 9; message_id := 7; intersection_id := "0AFF012B";
              type_fields := NoFields |}).
  reflexivity.
Defined.

(** *** The intersection id *)

Lemma unhex_hex2 (b : byte) (s : string) :
  unhex (hex2 b ++ s) = option_map (cons (byte_val b)) (unhex s).
Proof. destruct b; cbn; destruct (unhex s); reflexivity. Qed.

Lemma hex2_length (b : byte) : String.length (hex2 b) = 2%nat.
Proof. destruct b; reflexivity. Qed.

Lemma unhex_join (l : list byte) :
  unhex (join (map hex2 l)) = Some (map byte_val l).
Proof.
  induction l as [|b l IH]; cbn [map join fold_right].
  - reflexivity.
  - fold (join (map hex2 l)). rewrite unhex_hex2, IH. reflexivity.
Qed.

Lemma string_length_app (s t : string) :
  String.length (s ++ t) = (String.length s + String.length t)%nat.
Proof. induction s as [|c s IH]; simpl; [reflexivity|now rewrite IH]. Qed.

Lemma join_hex2_length (l : list byte) :
  String.length (join (map hex2 l)) = (2 * List.length l)%nat.
Proof.
  induction l as [|b l IH]; cbn [map join fold_right List.length].
  - reflexivity.
  - fold (join (map hex2 l)). rewrite string_length_app, hex2_length, IH. lia.
Qed.

(** X3. The intersection id of a record is two upper-case hexadecimal
    digits for each byte of [data[6:10]] that is present, eight characters
    once the payload has 10 bytes, and reading the digits back gives these
    bytes. *)
Theorem intersection_id_round_trip (data : list byte) (info : pics_info) :
  process_pics data = Ok info ->
  unhex (intersection_id info) = Some (map byte_val (slice 6 10 data))
  /\ String.length (intersection_id info)
     = (2 * Nat.min 4 (List.length data - 6))%nat
  /\ ((10 <= List.length data)%nat -> String.length (intersection_id info) = 8%nat).
Proof.
  intros H.
  destruct (process_pics_inv data info H) as (_ & _ & _ & _ & _ & _ & -> & _).
  split; [apply unhex_join|].
  assert (Hl : String.length (join (map hex2 (slice 6 10 data)))
               = (2 * Nat.min 4 (List.length data - 6))%nat).
  { rewrite join_hex2_length, slice_length. reflexivity. }
  split; [exact Hl|]. intros H10. rewrite Hl. lia.
Qed.

Lemma intersection_id_round_trip_witness :
  unhex "0AFF012B" = Some [0x0A; 0xFF; 0x01; 0x2B]
  /\ String.length "0AFF012B" = 8%nat
  /\ ((10 <= 10)%nat -> String.length "0AFF012B" = 8%nat).
Proof.
  apply (intersection_id_round_trip
           [x00; x00; x09; x07; x00; x00; x0a; xff; x01; x2b]
           {| message_type := 9; message_id := 7; intersection_id := "0AFF012B";
              type_fields := NoFields |}).
  reflexivity.
Defined.

(** *** Phases and their symbols *)

Lemma decode_phase_range (b : byte) :
  (remaining_time (decode_phase (byte_val b)) = -1
   \/ 1 <= remaining_time (decode_phase (byte_val b)) <= 8)
  /\ In (signal_state (decode_phase (byte_val b))) state_labels.
Proof.
  destruct b; (split; [cbn; lia|cbn; auto 10]).
Qed.

(** X4. A record never has more than six phases; the remaining time of a
    phase is -1 or between 1 and 8, and its state is one of the six
    labels. *)
Theorem phases_range (data : list byte) (info : pics_info) (l : list phase) :
  process_pics data = Ok info ->
  type_fields info = Signals l ->
  (List.length l <= 6)%nat
  /\ Forall (fun p =>
               (remaining_time p = -1 \/ 1 <= remaining_time p <= 8)
               /\ In (signal_state p) state_labels) l.
Proof.
  intros H Hf.
  destruct (process_pics_inv data info H) as (b2 & b3 & _ & _ & _ & _ & _ & Hc).
  assert (Hl : l = signals_loop data).
  { destruct Hc as [[_ E]|[(_ & _ & E)|[[_ E]|(_ & _ & _ & E)]]];
      rewrite E in Hf; congruence. }
  subst l. rewrite signals_loop_map. split.
  - rewrite length_map, slice_length. lia.
  - apply Forall_map, Forall_forall. intros b _. apply decode_phase_range.
Qed.

Lemma phases_range_witness :
  (List.length [{| remaining_time := 4; signal_state := "Red" |};
                {| remaining_time := -1; signal_state := "BlinkGreen" |}] <= 6)%nat
  /\ Forall (fun p =>
               (remaining_time p = -1 \/ 1 <= remaining_time p <= 8)
               /\ In (signal_state p) state_labels)
            [{| remaining_time := 4; signal_state := "Red" |};
             {| remaining_time := -1; signal_state := "BlinkGreen" |}].
Proof.
  apply (phases_range (sample_signal x31 x82)
           {| message_type := 2; message_id := 7; intersection_id := "0AFF012B";
              type_fields :=
                Signals [{| remaining_time := 4; signal_state := "Red" |};
                         {| remaining_time := -1; signal_state := "BlinkGreen" |}] |});
    reflexivity.
Defined.

(** X5. The six state labels have six different symbols, so the symbol
    shown tells the decoded state; a label outside the table is shown as
    the question mark of the Unknown state. *)
Theorem state_symbol_distinct :
  (forall a b,
      In a state_labels -> In b state_labels ->
      state_symbol a = state_symbol b -> a = b)
  /\ (forall s, ~ In s state_labels -> state_symbol s = state_symbol "Unknown").
Proof.
  split.
  - intros a b Ha Hb. unfold state_labels in Ha, Hb. simpl in Ha, Hb.
    repeat (destruct Ha as [<-|Ha]; [|]); try contradiction;
      repeat (destruct Hb as [<-|Hb]; [|]); try contradiction;
      cbn; intros E; solve [reflexivity|discriminate E].
  - intros s Hs. unfold state_symbol at 1.
    repeat match goal with
           | |- context [String.eqb s ?lbl] =>
             destruct (String.eqb_spec s lbl) as [->|_];
               [exfalso; apply Hs; cbn; auto 10|]
           end.
    reflexivity.
Qed.

Lemma state_symbol_distinct_witness :
  (state_symbol "Green" = state_symbol "BlinkGreen" -> "Green" = "BlinkGreen")%string
  /\ state_symbol "Yellow" = [0x3F].
Proof.
  destruct state_symbol_distinct as [H1 H2].
  split.
  - apply H1; cbn; auto 10.
  - rewrite H2; [reflexivity|].
    cbn. intros H. repeat (destruct H as [H|H]; [discriminate H|]). exact H.
Defined.

(** *** Bytes after the fields *)

Lemma slice_app {A : Type} (lo hi : nat) (l extra : list A) :
  (hi <= List.length l)%nat -> slice lo hi (l ++ extra) = slice lo hi l.
Proof.
  intros H. unfold slice.
  destruct (Nat.le_gt_cases lo hi) as [Hle|Hgt].
  - rewrite skipn_app, firstn_app, length_skipn.
    replace (hi - lo - (List.length l - lo))%nat with 0%nat by lia.
    rewrite firstn_O. apply app_nil_r.
  - replace (hi - lo)%nat with 0%nat by lia. reflexivity.
Qed.

Lemma index_app {A : Type} (l extra : list A) (i : nat) :
  (i < List.length l)%nat -> index (l ++ extra) i = index l i.
Proof. intros H. unfold index. now rewrite nth_error_app1. Qed.

(** X6. Nothing after byte 24 of a payload is read: a payload of at least
    24 bytes gives the same result whatever is appended to it. *)
Theorem trailing_bytes_ignored (data extra : list byte) :
  (24 <= List.length data)%nat ->
  process_pics (data ++ extra) = process_pics data.
Proof.
  intros H. unfold process_pics.
  rewrite !index_app by lia.
  rewrite !signals_loop_map.
  rewrite !(slice_app _ _ data extra) by lia.
  reflexivity.
Qed.

Lemma trailing_bytes_ignored_witness :
  process_pics ((sample_signal x31 x82 ++ repeat x00 12) ++ [xff; xff])
  = process_pics (sample_signal x31 x82 ++ repeat x00 12).
Proof.
  apply trailing_bytes_ignored. simpl. lia.
Defined.

(** *** The identifier text *)

Ltac utf8_split :=
  repeat match goal with
         | |- context [if ?c then _ else _] => destruct c eqn:?
         | |- context [match ?l with [] => _ | _ :: _ => _ end] =>
           destruct l as [|? ?]
         end.

Ltac utf8_facts :=
  unfold is_continuation in *;
  repeat match goal with
         | H : context [if ?c then _ else _] |- _ => destruct c eqn:?
         end;
  repeat match goal with
         | H : negb _ = true |- _ => apply negb_true_iff in H
         | H : negb _ = false |- _ => apply negb_false_iff in H
         | H : (_ || _)%bool = false |- _ =>
           apply orb_false_iff in H; destruct H
         | H : (_ && _)%bool = true |- _ =>
           apply andb_true_iff in H; destruct H
         | H : (_ <? _) = true |- _ => apply Z.ltb_lt in H
         | H : (_ <? _) = false |- _ => apply Z.ltb_ge in H
         | H : (_ <=? _) = true |- _ => apply Z.leb_le in H
         | H : (_ <=? _) = false |- _ => apply Z.leb_gt in H
         | H : (_ =? _) = true |- _ => apply Z.eqb_eq in H
         | H : (_ =? _) = false |- _ => apply Z.eqb_neq in H
         end.

Lemma utf8_decode_ignore_sound (n : nat) :
  forall s,
    (List.length s <= n)%nat ->
    (List.length (utf8_decode_ignore s) <= List.length s)%nat
    /\ Forall scalar_value (utf8_decode_ignore s).
Proof.
  induction n as [|n IH]; intros s Hn.
  { destruct s; [split; [reflexivity|constructor]|simpl in Hn; lia]. }
  destruct s as [|b0 s1]; [split; [reflexivity|constructor]|].
  pose proof (byte_val_range b0).
  cbn [utf8_decode_ignore]. cbv zeta.
  utf8_split;
    repeat match goal with
           | b : byte |- _ =>
             lazymatch goal with
             | _ : 0 <= byte_val b < 256 |- _ => fail
             | _ => pose proof (byte_val_range b)
             end
           end;
    cbn [List.length] in *;
    try (split; [cbn [List.length]; lia|constructor]);
    match goal with
    | |- context [utf8_decode_ignore ?t] =>
      destruct (IH t ltac:(cbn [List.length]; lia)) as [Hlen Hall]
    end;
    cbn [List.length] in *;
    (split;
     [lia
     |try apply Forall_cons; try assumption;
      utf8_facts; rewrite ?Z.shiftl_mul_pow2 by lia;
      unfold scalar_value; cbn [Z.pow Z.pow_pos Pos.iter Z.mul Pos.mul]; lia]).
Qed.

(** X7. An identifier has at most 14 characters, each a Unicode scalar
    value: never a surrogate, never above U+10FFFF. *)
Theorem identifier_text (data : list byte) (info : pics_info) (ident : list Z) :
  process_pics data = Ok info ->
  type_fields info = Identifier ident ->
  (List.length ident <= 14)%nat /\ Forall scalar_value ident.
Proof.
  intros H Hf.
  destruct (process_pics_inv data info H) as (b2 & b3 & _ & _ & _ & _ & _ & Hc).
  assert (Hi : ident = strip_nul (utf8_decode_ignore (slice 10 24 data))).
  { destruct Hc as [[_ E]|[(_ & _ & E)|[[_ E]|(_ & _ & _ & E)]]];
      rewrite E in Hf; congruence. }
  destruct (utf8_decode_ignore_sound _ (slice 10 24 data) (Nat.le_refl _))
    as [Hlen Hall].
  destruct (strip_nul_spec (utf8_decode_ignore (slice 10 24 data)))
    as (pre & post & E & _).
  rewrite <- Hi in E. rewrite E in Hlen, Hall.
  rewrite !length_app, slice_length in Hlen.
  apply Forall_app in Hall. destruct Hall as [_ Hall].
  apply Forall_app in Hall. destruct Hall as [Hall _].
  split; [lia|exact Hall].
Qed.

Lemma identifier_text_witness :
  (List.length [0x41; 0x3042; 0x42]%Z <= 14)%nat
  /\ Forall scalar_value [0x41; 0x3042; 0x42].
Proof.
  apply (identifier_text
           [x00; x00; x00; x07; x00; x00; x0a; xff; x01; x2b;
            x41; xe3; x81; x82; xff; x42; xed; xa0; x80; x00]
           {| message_type := 0; message_id := 7; intersection_id := "0AFF012B";
              type_fields := Identifier [0x41; 0x3042; 0x42] |});
    reflexivity.
Defined.

Lemma lstrip_nul_zeros (k : nat) (s : list Z) :
  lstrip_nul (repeat 0 k ++ s) = lstrip_nul s.
Proof. induction k as [|k IH]; [reflexivity|exact IH]. Qed.

Lemma lstrip_nul_id (s : list Z) :
  Forall (fun c => c <> 0) s -> lstrip_nul s = s.
Proof.
  intros [|c s' Hc _]; [reflexivity|]. simpl.
  destruct (Z.eqb_spec c 0); [contradiction|reflexivity].
Qed.

Lemma strip_nul_padded (text : list Z) (k : nat) :
  Forall (fun c => c <> 0) text -> strip_nul (text ++ repeat 0 k) = text.
Proof.
  intros Ht. unfold strip_nul, rstrip_nul.
  destruct text as [|c text'].
  - cbn [app]. rewrite <- (app_nil_r (repeat 0 k)), lstrip_nul_zeros.
    reflexivity.
  - assert (Hl : lstrip_nul ((c :: text') ++ repeat 0 k)
                 = (c :: text') ++ repeat 0 k).
    { simpl. inversion Ht; subst.
      destruct (Z.eqb_spec c 0); [contradiction|reflexivity]. }
    rewrite Hl, rev_app_distr, rev_repeat, lstrip_nul_zeros.
    rewrite lstrip_nul_id by now apply Forall_rev.
    apply rev_involutive.
Qed.

(** X8. Plain text comes back as sent: when [data[10:24]] is ASCII text
    without NUL, followed by NUL padding only, the identifier of the type 0
    record is that text. *)
Theorem identifier_ascii (data text : list byte) (k : nat) :
  (10 <= List.length data)%nat ->
  payload_type data = Some 0 ->
  slice 10 24 data = text ++ repeat x00 k ->
  Forall (fun b => 0 < byte_val b < 0x80) text ->
  exists info,
    process_pics data = Ok info
    /\ type_fields info = Identifier (map byte_val text).
Proof.
  intros Hlen Ht Hs Htext.
  destruct (process_pics_header data) as (b2 & b3 & E2 & _ & ->); [lia|].
  rewrite (payload_type_byte _ _ _ E2 Ht). cbv zeta. simpl (0 =? _).
  eexists; split; [reflexivity|]. cbn [type_fields]. f_equal.
  rewrite Hs, utf8_decode_ignore_ascii.
  - rewrite map_app, map_repeat. apply strip_nul_padded.
    apply Forall_map. revert Htext. apply Forall_impl. intros b Hb. lia.
  - apply Forall_app. split.
    + revert Htext. apply Forall_impl. intros b Hb. lia.
    + apply Forall_forall. intros b Hb. apply repeat_spec in Hb. now subst.
Qed.

Lemma identifier_ascii_witness :
  exists info,
    process_pics [x00; x00; x00; x07; x00; x00; x0a; xff; x01; x2b;
                  x50; x49; x43; x53; x00; x00] = Ok info
    /\ type_fields info = Identifier [0x50; 0x49; 0x43; 0x53].
Proof.
  apply (identifier_ascii
           [x00; x00; x00; x07; x00; x00; x0a; xff; x01; x2b;
            x50; x49; x43; x53; x00; x00] [x50; x49; x43; x53] 2).
  - simpl. lia.
  - reflexivity.
  - reflexivity.
  - repeat (apply Forall_cons; [vm_compute; split; reflexivity|]).
    apply Forall_nil.
Defined.

(** * Further properties of the callback *)

Section Preserves.

Variable R : world -> world -> Prop.
Hypothesis R_refl : forall w, R w w.
Hypothesis R_trans : forall w1 w2 w3, R w1 w2 -> R w2 w3 -> R w1 w3.

Lemma preserves_ret {A : Type} (a : A) : preserves R (ret a).
Proof. intros w. apply R_refl. Qed.

Lemma preserves_lift {A : Type} (r : result A) : preserves R (lift r).
Proof. intros w. apply R_refl. Qed.

Lemma preserves_get : preserves R get.
Proof. intros w. apply R_refl. Qed.

Lemma preserves_bind {A B : Type} (m : M A) (k : A -> M B) :
  preserves R m -> (forall a, preserves R (k a)) -> preserves R (bind m k).
Proof.
  intros Hm Hk w. unfold bind. specialize (Hm w).
  destruct (m w) as [w1 [a|e]]; cbn [fst] in *.
  - exact (R_trans _ _ _ Hm (Hk a w1)).
  - exact Hm.
Qed.

End Preserves.

Ltac preserve_step Hrefl Htrans :=
  match goal with
  | |- preserves _ (bind _ _) => apply (preserves_bind _ Htrans); [|intro]
  | |- preserves _ (match ?x with _ => _ end) => destruct x
  | |- preserves _ (ret _) => apply (preserves_ret _ Hrefl)
  | |- preserves _ (lift _) => apply (preserves_lift _ Hrefl)
  | |- preserves _ get => apply (preserves_get _ Hrefl)
  | |- preserves _ (print _) =>
    intro; unfold same_latest, not_before; cbn; repeat split; lia
  | |- preserves _ (datetime_now _) =>
    intro; unfold same_latest, not_before; cbn; repeat split; lia
  end.

Lemma same_latest_refl (w : world) : same_latest w w.
Proof. repeat split. Qed.

Lemma same_latest_trans (w1 w2 w3 : world) :
  same_latest w1 w2 -> same_latest w2 w3 -> same_latest w1 w3.
Proof. intros (A1 & A2 & A3) (B1 & B2 & B3). repeat split; congruence. Qed.

Lemma not_before_refl (w : world) : not_before w w.
Proof. unfold not_before. lia. Qed.

Lemma not_before_trans (w1 w2 w3 : world) :
  not_before w1 w2 -> not_before w2 w3 -> not_before w1 w3.
Proof. unfold not_before. lia. Qed.

Lemma display_same_latest (clock : nat -> Z) (info : pics_info) (data : list byte) :
  preserves same_latest (display clock info data).
Proof.
  unfold display, show_signal, show_monitor, show_history.
  repeat preserve_step same_latest_refl same_latest_trans.
Qed.

Lemma display_not_before (clock : nat -> Z) (info : pics_info) (data : list byte) :
  preserves not_before (display clock info data).
Proof.
  unfold display, show_signal, show_monitor, show_history.
  repeat preserve_step not_before_refl not_before_trans.
Qed.

(** What the update of the globals always does, raising or not. *)
Lemma ingest_effects (clock : nat -> Z) (info : pics_info) (data : list byte) (w : world) :
  latest_info (fst (ingest clock info data w)) = Some info
  /\ latest_raw (fst (ingest clock info data w)) = Some data
  /\ latest_timestamp (fst (ingest clock info data w)) = Some (clock (ticks w))
  /\ ticks (fst (ingest clock info data w)) = S (ticks w)
  /\ stdout (fst (ingest clock info data w)) = stdout w.
Proof.
  run_callback.
  destruct (message_type info =? 2); cbn; [|auto 6].
  destruct (get_pedestrian_signals info) as [l|e]; cbn; [|auto 6].
  destruct (index l 0) as [p0|e0]; cbn; [|auto 6].
  destruct (index l 1) as [p1|e1]; cbn; auto 6.
Qed.

Lemma ingest_history_time (clock : nat -> Z) (info : pics_info) (data : list byte) (w : world) :
  log_history (fst (ingest clock info data w)) = log_history w
  \/ exists entry,
       time entry = clock (ticks w)
       /\ log_history (fst (ingest clock info data w))
          = deque_append (log_history w) entry.
Proof.
  run_callback.
  destruct (message_type info =? 2); cbn; [|now left].
  destruct (get_pedestrian_signals info) as [l|e]; cbn; [|now left].
  destruct (index l 0) as [p0|e0]; cbn; [|now left].
  destruct (index l 1) as [p1|e1]; cbn; [|now left].
  right. eexists. split; [|reflexivity]. reflexivity.
Qed.

(** The screen part, run on a state whose retained display can be read. *)
Lemma display_run (clock : nat -> Z) (info : pics_info) (data : list byte)
      (w : world) (d : option (phase * phase)) (t : Z) :
  current_display w = Ok d -> latest_timestamp w = Some t ->
  exists w',
    display clock info data w = (w', Ok tt)
    /\ ticks w' = S (ticks w)
    /\ stdout w'
       = stdout w
         ++ [Header;
             match d with
             | Some (p, q) => SignalRow t p q
             | None => Waiting
             end;
             Monitor t data info;
             HistoryRows (recent_entries (timedelta_seconds 30)
                                         (clock (ticks w)) (log_history w))].
Proof.
  intros Hd Ht. run_callback.
  rewrite (current_display_eq w) by reflexivity. rewrite Hd.
  destruct d as [[p q]|]; cbn [latest_timestamp ticks stdout log_history];
    rewrite ?Ht; cbn [latest_timestamp ticks stdout log_history]; rewrite ?Ht;
    eexists; (split; [reflexivity|]);
    cbn [latest_timestamp ticks stdout log_history];
    (split; [reflexivity|]); rewrite <- !app_assoc; reflexivity.
Qed.

Lemma display_raise (clock : nat -> Z) (info : pics_info) (data : list byte)
      (w : world) (e : exn) :
  current_display w = Raise e ->
  snd (display clock info data w) = Raise e.
Proof.
  intros Hd. run_callback.
  rewrite (current_display_eq w) by reflexivity. rewrite Hd. reflexivity.
Qed.

Lemma callback_pics_entries (clock : nat -> Z) (ad : list (Z * list byte)) :
  forall w,
    detection_callback clock ad w = detection_callback clock (pics_entries ad) w.
Proof.
  induction ad as [|[v data] ad IH]; intros w; [reflexivity|].
  destruct (Z.eqb_spec v 0x01CE) as [->|Hv].
  - change (pics_entries ((0x01CE, data) :: ad))
      with ((0x01CE, data) :: pics_entries ad).
    cbn [detection_callback].
    destruct (decode 0x01CE data) as [|e|info]; [apply IH|reflexivity|].
    unfold bind. destruct (handle clock info data w) as [w1 [[]|e]];
      [apply IH|reflexivity].
  - assert (E : pics_entries ((v, data) :: ad) = pics_entries ad).
    { unfold pics_entries. cbn [filter fst].
      destruct (Z.eqb_spec v 0x01CE); [contradiction|reflexivity]. }
    rewrite E. cbn [detection_callback]. unfold decode.
    destruct (Z.eqb_spec v 0x01CE); [contradiction|]. apply IH.
Qed.

(** X9. Only the entries of manufacturer 0x01CE matter to the callback:
    its result and the state it leaves are those of the callback run on
    these entries alone, in their order. *)
Theorem foreign_entries_transparent (clock : nat -> Z) (ad : list (Z * list byte))
        (w : world) :
  detection_callback clock ad w = detection_callback clock (pics_entries ad) w
  /\ Forall (fun entry => fst entry = 0x01CE) (pics_entries ad).
Proof.
  split; [apply callback_pics_entries|].
  apply Forall_forall. intros entry Hin.
  apply filter_In in Hin. destruct Hin as [_ H]. now apply Z.eqb_eq.
Qed.

Lemma process_pics_raise_kind (data : list byte) (e : exn) :
  process_pics data = Raise e -> e = IndexError \/ e = StructError.
Proof.
  intros H.
  destruct (Nat.lt_ge_cases (List.length data) 4) as [Hs|Hl].
  - rewrite process_pics_short in H by assumption. injection H as <-. now left.
  - destruct (process_pics_header data Hl) as (b2 & b3 & _ & _ & E).
    rewrite E in H. clear E. cbv zeta in H.
    destruct (byte_val b2 =? 0); [discriminate|].
    destruct (byte_val b2 =? 1).
    + destruct (unpack_be_i32 (slice 10 14 data)) as [lat|e1] eqn:E1.
      * destruct (unpack_be_i32 (slice 14 18 data)) as [lon|e2] eqn:E2;
          [discriminate|].
        simpl in H. injection H as <-.
        unfold unpack_be_i32 in E2.
        destruct (slice 14 18 data) as [|? [|? [|? [|? [|? ?]]]]];
          try discriminate; injection E2 as <-; now right.
      * simpl in H. injection H as <-.
        unfold unpack_be_i32 in E1.
        destruct (slice 10 14 data) as [|? [|? [|? [|? [|? ?]]]]];
          try discriminate; injection E1 as <-; now right.
    + destruct (byte_val b2 =? 2); discriminate.
Qed.

Lemma callback_parse_failure (clock : nat -> Z) (ad rest : list (Z * list byte))
      (data : list byte) (e : exn) (w : world) :
  pics_entries ad = (0x01CE, data) :: rest ->
  process_pics data = Raise e ->
  detection_callback clock ad w = (w, Raise e).
Proof.
  intros Had Hp. rewrite callback_pics_entries, Had.
  cbn [detection_callback]. rewrite decode_vendor, Hp. reflexivity.
Qed.

(** X10. A payload on which [process_pics] raises changes nothing: the
    callback ends with that exception, the globals and the screen are as
    before, and the advertisements that follow are handled as if this one
    had not been received. *)
Theorem parse_failure_harmless (clock : nat -> Z) (ad rest : list (Z * list byte))
        (data : list byte) (e : exn) :
  pics_entries ad = (0x01CE, data) :: rest ->
  process_pics data = Raise e ->
  (forall w, detection_callback clock ad w = (w, Raise e))
  /\ (forall before after w,
         feed clock (before ++ ad :: after) w = feed clock (before ++ after) w).
Proof.
  intros Had Hp. split.
  - intros w. now apply (callback_parse_failure clock ad rest data e).
  - intros before after w. unfold feed. rewrite !fold_left_app.
    cbn [fold_left].
    now rewrite (callback_parse_failure clock ad rest data e _ Had Hp).
Qed.

Lemma parse_failure_harmless_witness :
  detection_callback Z.of_nat [(0x004C, [x02; x15]); (0x01CE, [x00; x00; x02])] initial
  = (initial, Raise IndexError)
  /\ feed Z.of_nat
          ([[(0x01CE, sample_signal x31 x82)]]
             ++ [(0x004C, [x02; x15]); (0x01CE, [x00; x00; x02])]
             :: [[(0x01CE, sample_signal x13 x31)]]) initial
     = feed Z.of_nat
            ([[(0x01CE, sample_signal x31 x82)]]
               ++ [[(0x01CE, sample_signal x13 x31)]]) initial.
Proof.
  destruct (parse_failure_harmless Z.of_nat
              [(0x004C, [x02; x15]); (0x01CE, [x00; x00; x02])] []
              [x00; x00; x02] IndexError) as [H1 H2];
    [reflexivity|reflexivity|].
  split; [apply H1|apply H2].
Defined.

Lemma handle_latest (clock : nat -> Z) (info : pics_info) (data : list byte) (w : world) :
  latest_info (fst (handle clock info data w)) = Some info
  /\ latest_raw (fst (handle clock info data w)) = Some data
  /\ latest_timestamp (fst (handle clock info data w)) = Some (clock (ticks w)).
Proof.
  destruct (ingest_effects clock info data w) as (H1 & H2 & H3 & _).
  unfold handle, bind.
  destruct (ingest clock info data w) as [w1 [[]|e]]; cbn [fst] in *.
  - destruct (display_same_latest clock info data w1) as (D1 & D2 & D3).
    repeat split; congruence.
  - auto.
Qed.

(** X11. Once a payload is decoded, [latest_info], [latest_raw] and
    [latest_timestamp] hold the record, the payload and the time of
    reception, also when the rest of the callback raises. *)
Theorem latest_globals (clock : nat -> Z) (ad : list (Z * list byte))
        (data : list byte) (info : pics_info) (w : world) :
  pics_entries ad = [(0x01CE, data)] ->
  process_pics data = Ok info ->
  latest_info (fst (detection_callback clock ad w)) = Some info
  /\ latest_raw (fst (detection_callback clock ad w)) = Some data
  /\ latest_timestamp (fst (detection_callback clock ad w))
     = Some (clock (ticks w)).
Proof.
  intros Had Hp. rewrite callback_pics_entries, Had.
  rewrite (callback_one clock data info w Hp).
  pose proof (handle_latest clock info data w) as H.
  unfold bind. destruct (handle clock info data w) as [w1 [[]|e]]; exact H.
Qed.

Lemma latest_globals_witness :
  let data := [x00; x00; x02; x07; x00; x00; x0a; xff; x01; x2b; x31] in
  let w' := fst (detection_callback Z.of_nat [(0x01CE, data)] initial) in
  latest_info w'
  = Some {| message_type := 2; message_id := 7; intersection_id := "0AFF012B";
            type_fields := Signals [{| remaining_time := 4; signal_state := "Red" |}] |}
  /\ latest_raw w' = Some data
  /\ latest_timestamp w' = Some 0.
Proof.
  intros data w'.
  apply (latest_globals Z.of_nat [(0x01CE, data)] data); reflexivity.
Defined.

(** *** Which exceptions the callback can raise *)

Lemma current_display_kinds (w : world) :
  tracker_ok w ->
  (exists d, current_display w = Ok d) \/ current_display w = Raise IndexError.
Proof.
  intros Hw. unfold current_display.
  destruct (last_signal_info w) as [info|] eqn:E; [|left; now exists None].
  destruct (Hw info E) as [_ [l Hl]].
  unfold get_pedestrian_signals. rewrite Hl.
  destruct l as [|p0 [|p1 l]]; cbn; [now right|now right|].
  left. now eexists.
Qed.

Lemma process_pics_signals (data : list byte) (info : pics_info) :
  process_pics data = Ok info ->
  message_type info = 2 -> exists l, type_fields info = Signals l.
Proof.
  intros H Ht.
  destruct (process_pics_inv data info H) as (b2 & b3 & _ & _ & E & _ & _ & Hc).
  rewrite Ht in E.
  destruct Hc as [[H0 _]|[(H1 & _)|[[_ Hf]|(_ & _ & H2 & _)]]];
    try congruence.
  now exists (signals_loop data).
Qed.

Lemma handle_tracker_ok (clock : nat -> Z) (info : pics_info) (data : list byte) (w : world) :
  (message_type info = 2 -> exists l, type_fields info = Signals l) ->
  tracker_ok w ->
  tracker_ok (fst (handle clock info data w))
  /\ forall e, snd (handle clock info data w) = Raise e -> e = IndexError.
Proof.
  intros Hinfo Hw.
  destruct (ingest_effects clock info data w) as (_ & _ & Hts & _).
  destruct (handle_fst clock info data w) as [Hlast _].
  destruct (Z.eq_dec (message_type info) 2) as [Ht|Ht].
  - destruct (Hinfo Ht) as [l Hl].
    destruct l as [|p0 [|p1 more]].
    + destruct (ingest_signal_short clock info data w [] Ht Hl)
        as (w1 & Hi & Hl1 & _); [simpl; lia|].
      rewrite Hi in Hlast. cbn [fst] in Hlast.
      split.
      * intros i Hi'. rewrite Hlast, Hl1 in Hi'. injection Hi' as <-. eauto.
      * unfold handle, bind. rewrite Hi. cbn. now intros e [= <-].
    + destruct (ingest_signal_short clock info data w [p0] Ht Hl)
        as (w1 & Hi & Hl1 & _); [simpl; lia|].
      rewrite Hi in Hlast. cbn [fst] in Hlast.
      split.
      * intros i Hi'. rewrite Hlast, Hl1 in Hi'. injection Hi' as <-. eauto.
      * unfold handle, bind. rewrite Hi. cbn. now intros e [= <-].
    + destruct (ingest_signal clock info data w p0 p1 more Ht Hl)
        as (w1 & Hi & Hl1 & _ & Hts1 & _).
      rewrite Hi in Hlast. cbn [fst] in Hlast.
      assert (Hd : current_display w1 = Ok (Some (p0, p1))).
      { unfold current_display, get_pedestrian_signals. now rewrite Hl1, Hl. }
      destruct (display_ok clock info data w1 _ _ Hd Hts1) as (w2 & Hdisp & _).
      split.
      * intros i Hi'. rewrite Hlast, Hl1 in Hi'. injection Hi' as <-. eauto.
      * unfold handle, bind. rewrite Hi, Hdisp. cbn. discriminate.
  - destruct (ingest_other clock info data w Ht)
      as (w1 & Hi & Hl1 & _ & _ & Hts1).
    rewrite Hi in Hlast. cbn [fst] in Hlast.
    assert (Hw1 : tracker_ok w1).
    { intros i Hi'. apply Hw. congruence. }
    split.
    + intros i Hi'. apply Hw. congruence.
    + unfold handle, bind. rewrite Hi.
      destruct (current_display_kinds w1 Hw1) as [[d Hd]|Hd].
      * destruct (display_ok clock info data w1 _ _ Hd Hts1) as (w2 & -> & _).
        cbn. discriminate.
      * pose proof (display_raise clock info data w1 _ Hd) as Hr.
        destruct (display clock info data w1) as [w2 r]. cbn in *.
        rewrite Hr. now intros e [= <-].
Qed.

Lemma callback_tracker_ok (clock : nat -> Z) (ad : list (Z * list byte)) :
  forall w,
    tracker_ok w ->
    tracker_ok (fst (detection_callback clock ad w))
    /\ forall e,
         snd (detection_callback clock ad w) = Raise e ->
         e = IndexError \/ e = StructError.
Proof.
  induction ad as [|[v data] ad IH]; intros w Hw.
  - split; [exact Hw|]. cbn. discriminate.
  - cbn [detection_callback]. unfold decode.
    destruct (negb (v =? 0x01CE)); [now apply IH|].
    destruct (process_pics data) as [info|e0] eqn:Hp.
    + destruct (handle_tracker_ok clock info data w
                  (process_pics_signals data info Hp) Hw) as [H1 H2].
      unfold bind.
      destruct (handle clock info data w) as [w1 [[]|e1]]; cbn [fst snd] in *.
      * now apply IH.
      * split; [exact H1|]. intros e [= <-]. left. now apply H2.
    + split; [exact Hw|]. cbn. intros e [= <-].
      now apply (process_pics_raise_kind data).
Qed.

(** X12. From the start on, the retained signal record is always a type 2
    record with its list of phases, and the timestamp is set before the
    display reads it: the callback never raises KeyError for a missing key
    nor AttributeError for an unset timestamp, and the retained display is
    read or fails with IndexError only. *)
Theorem callback_exceptions :
  tracker_ok initial
  /\ (forall clock ads, tracker_ok (feed clock ads initial))
  /\ (forall clock ads,
         (exists d, current_display (feed clock ads initial) = Ok d)
         \/ current_display (feed clock ads initial) = Raise IndexError)
  /\ (forall clock ads ad e,
         snd (detection_callback clock ad (feed clock ads initial)) = Raise e ->
         e <> KeyError /\ e <> AttributeError).
Proof.
  assert (H0 : tracker_ok initial) by (intros info; discriminate).
  assert (Hfeed : forall clock ads w, tracker_ok w -> tracker_ok (feed clock ads w)).
  { intros clock ads. induction ads as [|ad ads IH]; intros w Hw; [exact Hw|].
    cbn [feed fold_left]. apply IH. now apply callback_tracker_ok. }
  split; [exact H0|]. split; [|split].
  - intros clock ads. now apply Hfeed.
  - intros clock ads. apply current_display_kinds. now apply Hfeed.
  - intros clock ads ad e He.
    destruct (callback_tracker_ok clock ad (feed clock ads initial)
                (Hfeed clock ads initial H0)) as [_ Hk].
    destruct (Hk e He) as [->| ->]; split; discriminate.
Qed.

Lemma callback_exceptions_witness :
  snd (detection_callback Z.of_nat
         [(0x01CE, [x00; x00; x00; x07; x00; x00; x0a; xff; x01; x2b; x41])]
         (feed Z.of_nat
               [[(0x01CE, [x00; x00; x02; x07; x00; x00; x0a; xff; x01; x2b; x31])]]
               initial))
  = Raise IndexError
  /\ (IndexError <> KeyError /\ IndexError <> AttributeError).
Proof.
  split; [reflexivity|].
  apply (proj2 (proj2 (proj2 callback_exceptions)) Z.of_nat
           [[(0x01CE, [x00; x00; x02; x07; x00; x00; x0a; xff; x01; x2b; x31])]]
           [(0x01CE, [x00; x00; x00; x07; x00; x00; x0a; xff; x01; x2b; x41])]).
  reflexivity.
Defined.

(** *** What a callback shows *)

(** The effect of the loop body when it returns normally. *)
Lemma handle_run (clock : nat -> Z) (data : list byte) (info : pics_info)
      (w w' : world) :
  handle clock info data w = (w', Ok tt) ->
  ticks w' = S (S (ticks w))
  /\ exists d,
       current_display w' = Ok d
       /\ stdout w'
          = stdout w
            ++ [Header;
                match d with
                | Some (p, q) => SignalRow (clock (ticks w)) p q
                | None => Waiting
                end;
                Monitor (clock (ticks w)) data info;
                HistoryRows (recent_entries (timedelta_seconds 30)
                                            (clock (S (ticks w)))
                                            (log_history w'))].
Proof.
  intros Hcb.
  destruct (ingest_effects clock info data w) as (_ & _ & Hts & Hticks & Hout).
  unfold handle, bind in Hcb.
  destruct (ingest clock info data w) as [w1 [[]|e]]; cbn [fst] in *;
    [|discriminate].
  destruct (current_display w1) as [d|e] eqn:Hd.
  - destruct (display_run clock info data w1 d _ Hd Hts)
      as (w2 & Hdisp & Hticks2 & Hout2).
    destruct (display_frame clock info data w1) as [Hl2 Hh2].
    rewrite Hdisp in Hcb, Hl2, Hh2. cbn [fst] in Hl2, Hh2.
    injection Hcb as <-.
    split; [congruence|]. exists d. split.
    + now rewrite (current_display_eq w1 w2 Hl2).
    + rewrite Hout2, Hout, Hticks, Hh2. reflexivity.
  - pose proof (display_raise clock info data w1 e Hd) as Hr.
    destruct (display clock info data w1) as [w2 r]. cbn in Hr. subst r.
    discriminate.
Qed.

(** X13. A callback that decodes a payload and returns normally reads the
    clock twice and prints four things in this order: the header, the
    retained signal display stamped with the time of this reception (or the
    waiting line when no signal record is retained), the monitor of the
    payload and its record, and the entries of the history, as it is after
    this reception, that lie within 30 seconds of the second reading. *)
Theorem callback_output (clock : nat -> Z) (ad : list (Z * list byte))
        (data : list byte) (info : pics_info) (w w' : world) :
  pics_entries ad = [(0x01CE, data)] ->
  process_pics data = Ok info ->
  detection_callback clock ad w = (w', Ok tt) ->
  ticks w' = S (S (ticks w))
  /\ exists d,
       current_display w' = Ok d
       /\ stdout w'
          = stdout w
            ++ [Header;
                match d with
                | Some (p, q) => SignalRow (clock (ticks w)) p q
                | None => Waiting
                end;
                Monitor (clock (ticks w)) data info;
                HistoryRows (recent_entries (timedelta_seconds 30)
                                            (clock (S (ticks w)))
                                            (log_history w'))].
Proof.
  intros Had Hp Hcb.
  rewrite callback_pics_entries, Had in Hcb.
  rewrite (callback_one clock data info w Hp) in Hcb.
  apply (handle_run clock data info w w').
  unfold bind in Hcb.
  destruct (handle clock info data w) as [w1 [[]|e]]; [|discriminate].
  cbn in Hcb. now injection Hcb as <-.
Qed.

Lemma callback_output_witness :
  let data := [x00; x00; x00; x07; x00; x00; x0a; xff; x01; x2b; x41] in
  let info := {| message_type := 0; message_id := 7; intersection_id := "0AFF012B";
                 type_fields := Identifier [0x41] |} in
  let w' := fst (detection_callback Z.of_nat [(0x01CE, data)] initial) in
  ticks w' = 2%nat
  /\ exists d,
       current_display w' = Ok d
       /\ stdout w'
          = [Header;
             match d with
             | Some (p, q) => SignalRow 0 p q
             | None => Waiting
             end;
             Monitor 0 data info;
             HistoryRows (recent_entries (timedelta_seconds 30) 1 (log_history w'))].
Proof.
  intros data info w'.
  apply (callback_output Z.of_nat [(0x01CE, data)] data info initial w');
    reflexivity.
Defined.

(** *** The order of the history *)

Lemma sorted_app_last (l : list history_entry) (x : history_entry) :
  StronglySorted (fun a b => time a <= time b) l ->
  Forall (fun a => time a <= time x) l ->
  StronglySorted (fun a b => time a <= time b) (l ++ [x]).
Proof.
  induction 1 as [|a l Hs IH Ha]; intros Hx; cbn [app].
  - repeat constructor.
  - inversion Hx; subst. constructor; [now apply IH|].
    apply Forall_app. split; [exact Ha|]. repeat constructor. assumption.
Qed.

Lemma deque_append_sorted (d : deque history_entry) (x : history_entry) (bound : Z) :
  StronglySorted (fun a b => time a <= time b) (items d) ->
  Forall (fun a => time a <= time x) (items d) ->
  time x <= bound ->
  StronglySorted (fun a b => time a <= time b) (items (deque_append d x))
  /\ Forall (fun a => time a <= bound) (items (deque_append d x)).
Proof.
  intros Hs Hx Hb.
  assert (Hall : Forall (fun a => time a <= bound) (items d)).
  { revert Hx. apply Forall_impl. intros a Ha. lia. }
  unfold deque_append.
  destruct (maxlen d =? 0)%nat; [now split|].
  destruct (List.length (items d) <? maxlen d)%nat; cbn [items].
  - split; [now apply sorted_app_last|].
    apply Forall_app. split; [exact Hall|now repeat constructor].
  - destruct (items d) as [|a l]; cbn [tl].
    + split; [now apply sorted_app_last|now repeat constructor].
    + apply StronglySorted_inv in Hs. destruct Hs as [Hs _].
      inversion Hx; subst. inversion Hall; subst.
      split; [now apply sorted_app_last|].
      apply Forall_app. split; [assumption|now repeat constructor].
Qed.

Lemma handle_not_before (clock : nat -> Z) (info : pics_info) (data : list byte) (w : world) :
  (ticks w <= ticks (fst (handle clock info data w)))%nat.
Proof.
  destruct (ingest_effects clock info data w) as (_ & _ & _ & Ht & _).
  unfold handle, bind.
  destruct (ingest clock info data w) as [w1 [[]|e]]; cbn [fst] in *; [|lia].
  pose proof (display_not_before clock info data w1) as Hd.
  unfold not_before in Hd. lia.
Qed.

Lemma handle_history_sorted (clock : nat -> Z) (info : pics_info) (data : list byte) (w : world) :
  clock_monotone clock ->
  history_sorted clock w -> history_sorted clock (fst (handle clock info data w)).
Proof.
  intros Hmono [Hs Hb]. unfold history_sorted.
  pose proof (handle_not_before clock info data w) as Ht.
  destruct (handle_fst clock info data w) as [_ ->].
  pose proof (Hmono _ _ Ht) as Hc.
  destruct (ingest_history_time clock info data w) as [->|(entry & He & ->)].
  - split; [exact Hs|]. revert Hb. apply Forall_impl. intros a Ha. lia.
  - apply deque_append_sorted; [exact Hs| |lia].
    revert Hb. apply Forall_impl. intros a Ha. lia.
Qed.

Lemma callback_history_sorted (clock : nat -> Z) (ad : list (Z * list byte)) :
  clock_monotone clock ->
  forall w, history_sorted clock w ->
            history_sorted clock (fst (detection_callback clock ad w)).
Proof.
  intros Hmono. induction ad as [|[v data] ad IH]; intros w Hw.
  - exact Hw.
  - cbn [detection_callback].
    destruct (decode v data) as [|e|info]; [now apply IH|exact Hw|].
    pose proof (handle_history_sorted clock info data w Hmono Hw) as H1.
    unfold bind.
    destruct (handle clock info data w) as [w1 [[]|e]]; cbn [fst] in *.
    + now apply IH.
    + exact H1.
Qed.

(** X14. With a clock that never goes back, the history is always in the
    order of its times, oldest first, whatever advertisements have been
    received. *)
Theorem history_time_ordered (clock : nat -> Z) (ads : list (list (Z * list byte))) :
  clock_monotone clock ->
  StronglySorted (fun a b => time a <= time b)
                 (items (log_history (feed clock ads initial))).
Proof.
  intros Hmono.
  assert (H : forall w, history_sorted clock w ->
                        history_sorted clock (feed clock ads w)).
  { induction ads as [|ad ads IH]; intros w Hw; [exact Hw|].
    cbn [feed fold_left]. apply IH. now apply callback_history_sorted. }
  apply (H initial). split; constructor.
Qed.

Lemma history_time_ordered_witness :
  StronglySorted (fun a b => time a <= time b)
    (items (log_history
              (feed Z.of_nat
                    (pics_ads [sample_signal x31 x82; sample_signal x13 x31])
                    initial))).
Proof.
  apply history_time_ordered. intros m n H. lia.
Defined.

Lemma filter_all {A : Type} (p : A -> bool) (l : list A) :
  Forall (fun a => p a = true) l -> filter p l = l.
Proof.
  induction 1 as [|a l Ha _ IH]; simpl; [reflexivity|].
  now rewrite Ha, IH.
Qed.

(** X15. On a history in the order of its times the entries within a
    window are the newest ones: the history is a run of entries older than
    the window followed by exactly the entries shown. *)
Theorem recent_history_suffix (window now : Z) (log : deque history_entry) :
  StronglySorted (fun a b => time a <= time b) (items log) ->
  exists older,
    items log = older ++ recent_entries window now log
    /\ Forall (fun entry => window < now - time entry) older.
Proof.
  unfold recent_entries.
  induction 1 as [|a l Hs (older & E & Ho) Ha].
  - exists []. split; [reflexivity|constructor].
  - cbn [filter]. destruct (Z.leb_spec (now - time a) window) as [Hin|Hout].
    + exists []. split; [|constructor]. cbn [app]. f_equal.
      symmetry. apply filter_all. revert Ha. apply Forall_impl.
      intros b Hb. apply Z.leb_le. lia.
    + exists (a :: older). split; [cbn [app]; now f_equal|].
      now constructor.
Qed.

Lemma recent_history_suffix_witness :
  let p := {| remaining_time := 4; signal_state := "Red" |} in
  let at_seconds s := {| time := timedelta_seconds s; s1 := p; s2 := p |} in
  let log := {| maxlen := 5; items := [at_seconds 0; at_seconds 10; at_seconds 40] |} in
  exists older,
    items log = older ++ recent_entries (timedelta_seconds 30) (timedelta_seconds 45) log
    /\ Forall (fun entry => timedelta_seconds 30 < timedelta_seconds 45 - time entry)
              older.
Proof.
  intros p at_seconds log.
  apply recent_history_suffix.
  repeat (constructor; [|repeat (constructor; [vm_compute; discriminate|])]);
    constructor.
Defined.

(** *** A signal payload is always taken *)

(** X16. A type 2 payload with two phases or more is handled without
    exception in every state, also one whose retained record has too few
    phases: the record becomes the retained one, and its entry is put at
    the right end of the history, the oldest entry leaving only when five
    are stored. *)
Theorem signal_always_taken (clock : nat -> Z) (data : list byte) (w : world) :
  signal_payload data ->
  history_ok w ->
  exists info w',
    process_pics data = Ok info
    /\ detection_callback clock [(0x01CE, data)] w = (w', Ok tt)
    /\ last_signal_info w' = Some info
    /\ items (log_history w')
       = (if (List.length (items (log_history w)) <? 5)%nat
          then items (log_history w)
          else tl (items (log_history w)))
           ++ [entry_of (clock (ticks w)) data].
Proof.
  intros Hs [Hm Hl].
  destruct (callback_signal clock data w Hs)
    as (info & w' & Hp & Hcb & Hlast & Hlog & _).
  exists info, w'. repeat split; trivial.
  rewrite Hlog. unfold deque_append. rewrite Hm. cbn [Nat.eqb].
  destruct (List.length (items (log_history w)) <? 5)%nat; reflexivity.
Qed.

Lemma signal_always_taken_witness :
  let w := fst (detection_callback Z.of_nat
                  [(0x01CE, [x00; x00; x02; x07; x00; x00; x0a; xff; x01; x2b; x31])]
                  initial) in
  exists info w',
    process_pics (sample_signal x31 x82) = Ok info
    /\ detection_callback Z.of_nat [(0x01CE, sample_signal x31 x82)] w = (w', Ok tt)
    /\ last_signal_info w' = Some info
    /\ items (log_history w')
       = (if (List.length (items (log_history w)) <? 5)%nat
          then items (log_history w)
          else tl (items (log_history w)))
           ++ [entry_of (Z.of_nat (ticks w)) (sample_signal x31 x82)].
Proof.
  intros w.
  apply (signal_always_taken Z.of_nat (sample_signal x31 x82) w).
  - split; [reflexivity|simpl; lia].
  - split; [reflexivity|simpl; lia].
Defined.

(** X17. After any run of signal payloads with two phases or more, the
    history is the last five of what it held before followed by one entry
    for each payload, in the order received; five payloads or more leave
    exactly five entries. *)
Theorem history_after_signals (clock : nat -> Z) (payloads : list (list byte)) (w : world) :
  Forall signal_payload payloads ->
  history_ok w ->
  items (log_history (feed clock (pics_ads payloads) w))
  = lastn 5 (items (log_history w) ++ entries clock (ticks w) payloads)
  /\ ((5 <= List.length payloads)%nat ->
      List.length (items (log_history (feed clock (pics_ads payloads) w))) = 5%nat).
Proof.
  intros Hs Hw.
  destruct (feed_signals clock payloads Hs w Hw) as [_ ->].
  split; [reflexivity|]. intros H5.
  rewrite lastn_length, length_app.
  assert (He : forall k, List.length (entries clock k payloads) = List.length payloads).
  { clear. induction payloads as [|d ds IH]; intros k; [reflexivity|].
    cbn [entries List.length]. now rewrite IH. }
  rewrite He. lia.
Qed.

Lemma history_after_signals_witness :
  items (log_history
           (feed Z.of_nat (pics_ads [sample_signal x31 x82; sample_signal x13 x31])
                 initial))
  = lastn 5 ([] ++ entries Z.of_nat 0 [sample_signal x31 x82; sample_signal x13 x31])
  /\ ((5 <= 2)%nat ->
      List.length
        (items (log_history
                  (feed Z.of_nat
                        (pics_ads [sample_signal x31 x82; sample_signal x13 x31])
                        initial))) = 5%nat).
Proof.
  apply (history_after_signals Z.of_nat
           [sample_signal x31 x82; sample_signal x13 x31] initial).
  - repeat (apply Forall_cons; [split; [reflexivity|simpl; lia]|]).
    apply Forall_nil.
  - split; [reflexivity|simpl; lia].
Defined.

(** X18. The entry of a signal payload is on the screen at once: when the
    two readings of the clock in its callback are at most 30 seconds
    apart, the history rows printed last contain the entry just logged. *)
Theorem new_entry_shown (clock : nat -> Z) (data : list byte) (w : world) :
  signal_payload data ->
  history_ok w ->
  clock (S (ticks w)) - clock (ticks w) <= timedelta_seconds 30 ->
  exists w' rows,
    detection_callback clock [(0x01CE, data)] w = (w', Ok tt)
    /\ last (stdout w') Header = HistoryRows rows
    /\ In (entry_of (clock (ticks w)) data) rows.
Proof.
  intros Hs [Hm Hl] Hc.
  destruct (callback_signal clock data w Hs)
    as (info & w' & Hp & Hcb & _ & Hlog & _).
  assert (Hh : handle clock info data w = (w', Ok tt)).
  { rewrite (callback_one clock data info w Hp) in Hcb. unfold bind in Hcb.
    destruct (handle clock info data w) as [w1 [[]|e]]; [|discriminate].
    cbn in Hcb. now injection Hcb as <-. }
  destruct (handle_run clock data info w w' Hh) as (_ & d & _ & Hout).
  exists w'. eexists. split; [exact Hcb|]. split.
  - rewrite Hout.
    change [Header;
            match d with
            | Some (p, q) => SignalRow (clock (ticks w)) p q
            | None => Waiting
            end;
            Monitor (clock (ticks w)) data info;
            HistoryRows (recent_entries (timedelta_seconds 30)
                                        (clock (S (ticks w))) (log_history w'))]
      with ([Header;
             match d with
             | Some (p, q) => SignalRow (clock (ticks w)) p q
             | None => Waiting
             end;
             Monitor (clock (ticks w)) data info]
              ++ [HistoryRows (recent_entries (timedelta_seconds 30)
                                              (clock (S (ticks w)))
                                              (log_history w'))]).
    rewrite app_assoc. apply last_last.
  - unfold recent_entries. apply filter_In. split.
    + rewrite Hlog.
      destruct (deque_append_items (log_history w)
                  (entry_of (clock (ticks w)) data) Hm Hl) as [_ ->].
      unfold lastn. rewrite <- (firstn_skipn 0 [entry_of (clock (ticks w)) data]).
      cbn [firstn skipn app].
      rewrite skipn_app. apply in_or_app. right.
      rewrite length_app. cbn [List.length].
      replace (List.length (items (log_history w)) + 1 - 5
               - List.length (items (log_history w)))%nat with 0%nat by lia.
      now left.
    + apply Z.leb_le. exact Hc.
Qed.

Lemma new_entry_shown_witness :
  exists w' rows,
    detection_callback Z.of_nat [(0x01CE, sample_signal x31 x82)] initial = (w', Ok tt)
    /\ last (stdout w') Header = HistoryRows rows
    /\ In (entry_of 0 (sample_signal x31 x82)) rows.
Proof.
  apply (new_entry_shown Z.of_nat (sample_signal x31 x82) initial).
  - split; [reflexivity|simpl; lia].
  - split; [reflexivity|simpl; lia].
  - vm_compute. discriminate.
Defined.
